(** * Federated learning server and hot-reload inference loop

    A shallow embedding of [server.py] and [inference.py].

    Conventions of the embedding:
    - a Python [int] is a [Z];
    - a Python [float] that is only added, multiplied, divided or compared
      is an exact rational [Qc] (rounding is not modelled); the values that
      go through [softmax] are real numbers [R];
    - a Python [dict] is a [gmap];
    - a call that may raise returns a [result]: [Return v] or [Raise e];
    - printing, the file system and the video stream are explicit state. *)

From Stdlib Require Import ZArith QArith Qcanon Reals Lra Lia Ascii String.
From stdpp Require Import gmap strings list fin_maps pretty.

(** ** Exceptions and results *)

(** The exception classes the two source files can raise, each built-in to
    Python (the sources define no exception class of their own). *)
Inductive exception : Type :=
  | KeyError (key : string)
  | IndexError (index : Z)
  | ZeroDivisionError
  | AttributeError (attr : string)
  | FileNotFoundError (msg : string)
  | RuntimeError (msg : string)
  | EOFError
  | TypeError (msg : string)
  | KeyboardInterrupt.

(** [type(e).__name__] *)
Definition exception_name (e : exception) : string :=
  match e with
  | KeyError _ => "KeyError"
  | IndexError _ => "IndexError"
  | ZeroDivisionError => "ZeroDivisionError"
  | AttributeError _ => "AttributeError"
  | FileNotFoundError _ => "FileNotFoundError"
  | RuntimeError _ => "RuntimeError"
  | EOFError => "EOFError"
  | TypeError _ => "TypeError"
  | KeyboardInterrupt => "KeyboardInterrupt"
  end.

(** [isinstance(e, Exception)]: [KeyboardInterrupt] derives from
    [BaseException] only, every other class above from [Exception]. *)
Definition is_Exception (e : exception) : bool :=
  match e with
  | KeyboardInterrupt => false
  | _ => true
  end.

Inductive result (A : Type) : Type :=
  | Return (a : A)
  | Raise (e : exception).
Arguments Return {A} a.
Arguments Raise {A} e.

Global Instance result_ret : MRet result := λ A a, Return a.
Global Instance result_bind : MBind result := λ A B f r,
  match r with
  | Return a => f a
  | Raise e => Raise e
  end.

Definition raises {A} (r : result A) : Prop := ∃ e, r = Raise e.

(** ** Effects

    What a run does to the outside world is recorded as a trace of events,
    oldest first. *)

(** A scalar read out of a torch tensor after a division: torch divides by
    zero without raising and yields an IEEE special value. *)
Inductive tfloat : Type :=
  | Fin (q : Qc)
  | PosInf
  | NegInf
  | NaN.

Global Instance tfloat_eq_dec : EqDecision tfloat.
Proof. solve_decision. Defined.

(** [a / b] on 0-dimensional tensors *)
Definition tensor_div (a b : Qc) : tfloat :=
  if decide (b = 0%Qc) then
    if decide (a = 0%Qc) then NaN
    else if decide (0 < a)%Qc then PosInf else NegInf
  else Fin (a / b)%Qc.

(** [x * 100] *)
Definition times_100 (x : tfloat) : tfloat :=
  match x with
  | Fin q => Fin (q * Qc_of_Z 100)%Qc
  | other => other
  end.

(** A value of the [metrics] dictionary built by [test]. *)
Inductive metric_value : Type :=
  | MFloat (x : tfloat)
  | MList (l : list Qc).

Global Instance metric_value_eq_dec : EqDecision metric_value.
Proof. solve_decision. Defined.

(** A tensor is kept as the flat list of its entries; a state dict maps a
    layer name to its tensor. *)
Abbreviation tensor := (list Qc).
Abbreviation state_dict := (gmap string tensor).

(** A printed line.  Lines that format numbers keep the numbers instead of
    the digits ([:.2f] and the like are not modelled). *)
Inductive stdout_line : Type :=
  | Line (s : string)
  | OverallAccuracyLine (accuracy : tfloat)
  | AverageLossLine (loss : Qc)
  | ClassRow (class_name : string) (samples correct : Qc) (accuracy : tfloat)
  | DistributionRow (class_name : string) (predictions : Qc)
      (percentage : tfloat).

(** The file system: what [torch.save] writes and [torch.load] reads. *)
Module FS.

(** The archive [torch.save] produces for a checkpoint dictionary: one
    record per entry of the dictionary, then the end-of-archive
    directory, which a reader needs to open the archive at all. *)
Inductive piece : Type :=
  | PRound (r : Z)
  | PStateDict (d : state_dict)
  | PMetrics (m : gmap string metric_value)
  | PEnd.

Record file : Type := { data : list piece; mtime : Qc }.

Abbreviation t := (gmap string file).

(** The steps of writing a file in place: [open(path, "wb")] creates the
    file or empties it, each write appends. *)
Inductive op : Type :=
  | Truncate (path : string)
  | Append (path : string) (x : piece).

Definition op_path (o : op) : string :=
  match o with
  | Truncate p => p
  | Append p _ => p
  end.

(** One step at wall-clock time [now]. *)
Definition step (now : Qc) (fs : t) (o : op) : t :=
  match o with
  | Truncate p => <[p := {| data := []; mtime := now |}]> fs
  | Append p x =>
      let old := default [] (data <$> fs !! p) in
      <[p := {| data := old ++ [x]; mtime := now |}]> fs
  end.

Definition run (now : Qc) (fs : t) (ops : list op) : t :=
  fold_left (step now) ops fs.

(** [path.exists()], [os.path.getmtime(path)] *)
Definition exists_ (fs : t) (p : string) : bool := bool_decide (is_Some (fs !! p)).
Definition getmtime (fs : t) (p : string) : result Qc :=
  match fs !! p with
  | Some f => Return (mtime f)
  | None => Raise (FileNotFoundError p)
  end.

End FS.

Global Instance piece_eq_dec : EqDecision FS.piece.
Proof. solve_decision. Defined.
Global Instance file_eq_dec : EqDecision FS.file.
Proof. solve_decision. Defined.
Global Instance op_eq_dec : EqDecision FS.op.
Proof. solve_decision. Defined.

(** The checkpoint dictionary [{"round": .., "model_state_dict": ..,
    "metrics": ..}]; a key may be absent from a dictionary read back from a
    file. *)
Record checkpoint : Type := {
  ck_round : option Z;
  ck_model_state_dict : option state_dict;
  ck_metrics : option (gmap string metric_value);
}.

Global Instance checkpoint_eq_dec : EqDecision checkpoint.
Proof. solve_decision. Defined.

Definition serialize (ck : checkpoint) : list FS.piece :=
  option_list (FS.PRound <$> ck_round ck)
  ++ option_list (FS.PStateDict <$> ck_model_state_dict ck)
  ++ option_list (FS.PMetrics <$> ck_metrics ck)
  ++ [FS.PEnd].

(** Reading an archive back: the entries up to the end-of-archive record. *)
Fixpoint read_entries (acc : checkpoint) (l : list FS.piece) : result checkpoint :=
  match l with
  | [] => Raise (RuntimeError "PytorchStreamReader failed reading zip archive")
  | [FS.PEnd] => Return acc
  | FS.PEnd :: _ => Raise (RuntimeError "PytorchStreamReader failed reading zip archive")
  | FS.PRound r :: l' =>
      read_entries {| ck_round := Some r;
                      ck_model_state_dict := ck_model_state_dict acc;
                      ck_metrics := ck_metrics acc |} l'
  | FS.PStateDict d :: l' =>
      read_entries {| ck_round := ck_round acc;
                      ck_model_state_dict := Some d;
                      ck_metrics := ck_metrics acc |} l'
  | FS.PMetrics m :: l' =>
      read_entries {| ck_round := ck_round acc;
                      ck_model_state_dict := ck_model_state_dict acc;
                      ck_metrics := Some m |} l'
  end.

Definition deserialize (l : list FS.piece) : result checkpoint :=
  match l with
  | [] => Raise EOFError
  | _ => read_entries {| ck_round := None; ck_model_state_dict := None;
                         ck_metrics := None |} l
  end.

(** [torch.save(obj, path)]: the file is opened for writing and the archive
    streamed into it. *)
Definition torch_save (ck : checkpoint) (path : string) : list FS.op :=
  FS.Truncate path :: (FS.Append path <$> serialize ck).

(** [torch.load(path)] *)
Definition torch_load (fs : FS.t) (path : string) : result checkpoint :=
  match fs !! path with
  | Some f => deserialize (FS.data f)
  | None => Raise (FileNotFoundError path)
  end.

(** What [cv2.putText] draws after its caption: a label, or a number that
    the source formats with [:.2f] or [:.1f]. *)
Inductive overlay : Type :=
  | OLabel (s : string)
  | OConfidence (c : R)
  | OFps (f : Qc).

Inductive event : Type :=
  | Print (l : stdout_line)
  | Write (o : FS.op)
  | PathExists (path : string)
  | Getmtime (path : string)
  | TorchLoad (path : string)
  | VideoCapture (url : string)
  | CapRead
  | CapRelease
  | Sleep (seconds : Z)
  | PutText (text : string) (value : overlay)
  | Imshow
  | WaitKey (ms : Z)
  | DestroyAllWindows.

Global Instance stdout_line_eq_dec : EqDecision stdout_line.
Proof. solve_decision. Defined.

(** A computation that may raise and that extends the trace. *)
Definition M (A : Type) : Type := list event → result A * list event.

Global Instance M_ret : MRet M := λ A a tr, (Return a, tr).
Global Instance M_bind : MBind M := λ A B f m tr,
  match m tr with
  | (Return a, tr') => f a tr'
  | (Raise e, tr') => (Raise e, tr')
  end.

Definition emit (e : event) : M unit := λ tr, (Return (), tr ++ [e]).
Definition print (s : string) : M unit := emit (Print (Line s)).
Definition raise {A} (e : exception) : M A := λ tr, (Raise e, tr).
Definition lift {A} (r : result A) : M A := λ tr, (r, tr).

(** [for x in l: body] threading the loop-carried state [s] *)
Fixpoint for_each {A S} (body : S → A → M S) (l : list A) (s : S) : M S :=
  match l with
  | [] => mret s
  | x :: l' => s' ← body s x; for_each body l' s'
  end.

(** The file-system steps of a trace. *)
Definition writes (tr : list event) : list FS.op :=
  omap (λ e, match e with Write o => Some o | _ => None end) tr.

(** [s * n] on strings *)
Fixpoint str_mul (s : string) (n : nat) : string :=
  match n with
  | O => ""
  | S n' => s +:+ str_mul s n'
  end.

(** ** Tensors *)

Section TorchMax.
Context {A : Type} (lt : A → A → Prop) `{!RelDecision lt}.

(** Scan from position [i] on, keeping the largest value seen and the
    first position where it occurs. *)
Fixpoint max_from (best : A) (best_i i : nat) (l : list A) : A * nat :=
  match l with
  | [] => (best, best_i)
  | x :: l' =>
      if decide (lt best x) then max_from x i (S i) l'
      else max_from best best_i (S i) l'
  end.

(** [torch.max(row, dim)] on one row: the maximum and its index. *)
Definition torch_max (row : list A) : result (A * nat) :=
  match row with
  | [] => Raise (IndexError 0)
  | x :: l => Return (max_from x 0 1 l)
  end.
End TorchMax.

Global Instance result_fmap : FMap result := λ A B f r,
  match r with
  | Return a => Return (f a)
  | Raise e => Raise e
  end.

(** [t[i]] and [t[i] += 1] on a one-dimensional tensor; the index is a
    non-negative class id. *)
Definition tensor_get (t : tensor) (i : nat) : result Qc :=
  match t !! i with
  | Some x => Return x
  | None => Raise (IndexError (Z.of_nat i))
  end.

Definition incr (t : tensor) (i : nat) : result tensor :=
  match t !! i with
  | Some x => Return (<[i := (x + 1)%Qc]> t)
  | None => Raise (IndexError (Z.of_nat i))
  end.

(** [sum(l)] and [t.sum()]: a left fold starting at [0]. *)
Definition sum_float (l : list Qc) : Qc := fold_left Qcplus l 0%Qc.
Definition sum_int (l : list Z) : Z := fold_left Z.add l 0%Z.

(** [float(n)] for an [int] *)
Definition float_of_int (n : Z) : Qc := Qc_of_Z n.

(** [a / b] on Python numbers with [b] an [int]: true division, which
    raises on a zero divisor. *)
Definition truediv (a : Qc) (b : Z) : result Qc :=
  if decide (b = 0%Z) then Raise ZeroDivisionError
  else Return (a / float_of_int b)%Qc.

Definition newline : string := String "010"%char "".

(** ** server.py *)

Module Server.

(** [Metrics]: a dictionary from metric name to a scalar. *)
Abbreviation Metrics := (gmap string Qc).

(** [m[k]] on a dictionary *)
Definition getitem {V} (m : gmap string V) (k : string) : result V :=
  match m !! k with
  | Some v => Return v
  | None => Raise (KeyError k)
  end.

(** [[num_examples * m["accuracy"] for num_examples, m in metrics]] *)
Fixpoint accuracies_of (metrics : list (Z * Metrics)) : result (list Qc) :=
  match metrics with
  | [] => Return []
  | (num_examples, m) :: rest =>
      a ← getitem m "accuracy";
      r ← accuracies_of rest;
      Return ((float_of_int num_examples * a)%Qc :: r)
  end.

(** [[num_examples for num_examples, _ in metrics]] *)
Definition examples_of (metrics : list (Z * Metrics)) : list Z :=
  map fst metrics.

Definition weighted_average (metrics : list (Z * Metrics)) : result Metrics :=
  accuracies ← accuracies_of metrics;
  let examples := examples_of metrics in
  q ← truediv (sum_float accuracies) (sum_int examples);
  Return {[ "accuracy" := q ]}.

Definition cifar10_labels : list (nat * string) :=
  [(0, "airplane"); (1, "automobile"); (2, "bird"); (3, "cat"); (4, "deer");
   (5, "dog"); (6, "frog"); (7, "horse"); (8, "ship"); (9, "truck")].

(** [cifar10_labels[i]] *)
Definition label_name (i : nat) : result string :=
  match (list_to_map cifar10_labels : gmap nat string) !! i with
  | Some s => Return s
  | None => Raise (KeyError (pretty i))
  end.

(** The tensors [test] accumulates into, and [running_loss]. *)
Record tallies : Type := {
  class_correct : tensor;
  class_total : tensor;
  prediction_distribution : tensor;
  running_loss : Qc;
}.

Record batch (Img : Type) : Type := { img : list Img; label : list nat }.
Arguments img {Img} _.
Arguments label {Img} _.

(** The body of [for label, prediction in zip(labels, predicted)] *)
Definition count_pair (s : tensor * tensor) (lp : nat * nat) : M (tensor * tensor) :=
  let '(correct, total) := s in
  let '(label, prediction) := lp in
  total ← lift (incr total label);
  if decide (label = prediction) then
    correct ← lift (incr correct label);
    mret (correct, total)
  else mret (correct, total).

(** The per-class accuracy expression
    [(class_correct[i] / class_total[i] * 100) if class_total[i] > 0 else 0] *)
Definition class_accuracy (correct total : tensor) (i : nat) : result tfloat :=
  t ← tensor_get total i;
  if decide (0 < t)%Qc then
    c ← tensor_get correct i;
    t' ← tensor_get total i;
    Return (times_100 (tensor_div c t'))
  else Return (Fin 0%Qc).

Section Test.
Context {Img : Type}.
(** The network's forward pass (a row of class scores per image) and the
    loss [nn.CrossEntropyLoss()] are taken as given. *)
Variable model : list Img → list (list Qc).
Variable criterion : list (list Qc) → list nat → Qc.

(** The body of [for data in testloader] *)
Definition test_batch (s : tallies) (data : batch Img) : M tallies :=
  let inputs := img data in
  let labels := label data in
  let outputs := model inputs in
  let loss := criterion outputs labels in
  predicted ← lift (mapM (λ row, snd <$> torch_max Qclt row) outputs);
  distribution ← for_each (λ d pred, lift (incr d pred)) predicted
                   (prediction_distribution s);
  '(correct, total) ← for_each count_pair (zip labels predicted)
                        (class_correct s, class_total s);
  mret {| class_correct := correct; class_total := total;
          prediction_distribution := distribution;
          running_loss := (running_loss s + loss)%Qc |}.

Definition print_class_row (s : tallies) (_ : unit) (i : nat) : M unit :=
  accuracy ← lift (class_accuracy (class_correct s) (class_total s) i);
  name ← lift (label_name i);
  let class_name := "Class " +:+ pretty i +:+ " (" +:+ name +:+ ")" in
  total ← lift (tensor_get (class_total s) i);
  correct ← lift (tensor_get (class_correct s) i);
  emit (Print (ClassRow class_name total correct accuracy)).

Definition print_distribution_row (s : tallies) (total_predictions : Qc)
    (_ : unit) (i : nat) : M unit :=
  p ← lift (tensor_get (prediction_distribution s) i);
  let percentage := times_100 (tensor_div p total_predictions) in
  name ← lift (label_name i);
  let class_name := "Class " +:+ pretty i +:+ " (" +:+ name +:+ ")" in
  p' ← lift (tensor_get (prediction_distribution s) i);
  emit (Print (DistributionRow class_name p' percentage)).

Definition add_class_accuracy (s : tallies)
    (class_accuracies : gmap string metric_value) (i : nat)
    : M (gmap string metric_value) :=
  acc ← lift (class_accuracy (class_correct s) (class_total s) i);
  name ← lift (label_name i);
  mret (<["class_" +:+ pretty i +:+ "_" +:+ name +:+ "_acc" := MFloat acc]>
          class_accuracies).

Definition zeros10 : tensor := replicate 10 0%Qc.

Definition test (testloader : list (batch Img))
    : M (Qc * tfloat * gmap string metric_value) :=
  let s0 := {| class_correct := zeros10; class_total := zeros10;
               prediction_distribution := zeros10; running_loss := 0%Qc |} in
  s ← for_each test_batch testloader s0;
  let overall_accuracy :=
    times_100 (tensor_div (sum_float (class_correct s))
                          (sum_float (class_total s))) in
  avg_loss ← lift (truediv (running_loss s) (Z.of_nat (length testloader)));
  print (newline +:+ str_mul "=" 60);;
  print "SERVER-SIDE EVALUATION METRICS";;
  print (str_mul "=" 60);;
  emit (Print (OverallAccuracyLine overall_accuracy));;
  emit (Print (AverageLossLine avg_loss));;
  print (newline +:+ "Class-wise Performance:");;
  print (str_mul "-" 60);;
  print "Class                |  Samples |  Correct |   Accuracy";;
  print (str_mul "-" 60);;
  for_each (print_class_row s) (seq 0 10) ();;
  print (newline +:+ "Model Prediction Distribution:");;
  print (str_mul "-" 60);;
  print "Class                |  Predictions | Percentage";;
  print (str_mul "-" 60);;
  let total_predictions := sum_float (prediction_distribution s) in
  for_each (print_distribution_row s total_predictions) (seq 0 10) ();;
  class_accuracies ← for_each (add_class_accuracy s) (seq 0 10) ∅;
  let metrics : gmap string metric_value :=
    class_accuracies ∪
    <["prediction_distribution" := MList (prediction_distribution s)]>
    (<["loss" := MFloat (Fin avg_loss)]>
    (<["accuracy" := MFloat overall_accuracy]> ∅)) in
  mret (avg_loss, overall_accuracy, metrics).

End Test.

Record SaveModelStrategy : Type := { save_dir : string }.

(** [dir / name] on paths *)
Definition path_join (dir name : string) : string := dir +:+ "/" +:+ name.

(** [dict(zip(keys, values))]: a later pair replaces an earlier one with the
    same key. *)
Definition dict_of_zip {V} (keys : list string) (values : list V) : gmap string V :=
  fold_left (λ d kv, <[kv.1 := kv.2]> d) (zip keys values) ∅.

(** [torch.save(obj, path)] as trace events *)
Definition save (ck : checkpoint) (path : string) : M unit :=
  for_each (λ _ o, emit (Write o)) (torch_save ck path) ().

Section AggregateFit.
Context {Img : Type}.
Variable model : list Img → list (list Qc).
Variable criterion : list (list Qc) → list nat → Qc.
(** [model.state_dict().keys()] of the module-level [model] *)
Variable state_dict_keys : list string.

(** [super_aggregate_fit] is what [FedAvg.aggregate_fit(server_round,
    results, failures)] returned, after
    [fl.common.parameters_to_ndarrays]; [testloader] is the loader built
    from [prepare_test_dataset()]. *)
Definition aggregate_fit (self : SaveModelStrategy) (server_round : Z)
    (super_aggregate_fit : option (list tensor) * gmap string metric_value)
    (testloader : list (batch Img))
    : M (option (list tensor) * gmap string metric_value) :=
  let '(aggregated_parameters, aggregated_metrics) := super_aggregate_fit in
  match aggregated_parameters with
  | Some ndarrays =>
      let parameters_dict := dict_of_zip state_dict_keys ndarrays in
      '(loss, accuracy, metrics) ← test model criterion testloader;
      print (newline +:+ str_mul "=" 50);;
      print ("ROUND " +:+ pretty server_round +:+ " COMPLETE");;
      print (str_mul "=" 50);;
      let save_path :=
        path_join (save_dir self)
                  ("model_round_" +:+ pretty server_round +:+ ".pt") in
      save {| ck_round := Some server_round;
              ck_model_state_dict := Some parameters_dict;
              ck_metrics := Some metrics |} save_path;;
      print (newline +:+ "Saved aggregated model for round "
             +:+ pretty server_round +:+ " to " +:+ save_path);;
      let latest_path := path_join (save_dir self) "model_latest.pt" in
      save {| ck_round := Some server_round;
              ck_model_state_dict := Some parameters_dict;
              ck_metrics := Some metrics |} latest_path;;
      print ("Saved latest model to " +:+ latest_path);;
      mret (aggregated_parameters, metrics)
  | None => mret (aggregated_parameters, aggregated_metrics)
  end.

End AggregateFit.

(** A value of the training configuration sent to the clients. *)
Inductive config_value : Type :=
  | CInt (n : Z)
  | CFloat (x : Qc).

(** [fit_config(server_round)] *)
Definition fit_config (server_round : Z) : gmap string config_value :=
  let config : gmap string config_value :=
    <["learning_rate" := CFloat (Q2Qc (1 # 10000))]>
    (<["batch_size" := CInt 32]>
    (<["epochs" := CInt 2]> ∅)) in
  config.

(** [get_parameters(model)], with [items] the pairs of
    [model.state_dict().items()] in their order. *)
Definition get_parameters (items : list (string * tensor)) : list tensor :=
  snd <$> items.

End Server.

(** ** inference.py *)

Module Inference.

(** The parsed command line: the parser defines these three options and no
    other. *)
Record Namespace : Type := {
  model_path : string;
  rtsp_url : string;
  confidence_threshold : R;
}.

(** [default=0.1] of [--confidence_threshold] *)
Definition default_confidence_threshold : R := (1 / 10)%R.

(** [args.name] for an option the parser does not define *)
Definition namespace_missing (name : string) : exception :=
  AttributeError ("'Namespace' object has no attribute '" +:+ name +:+ "'").

(** The network: its parameters and whether it is in training mode. *)
Record Model : Type := { weights : state_dict; training : bool }.

(** [model.load_state_dict(d)] (strict): the keys and shapes must be those
    of the model. *)
Definition load_state_dict (m : Model) (d : state_dict) : result Model :=
  if decide ((length <$> d) = (length <$> weights m)) then
    Return {| weights := d; training := training m |}
  else Raise (RuntimeError "Error(s) in loading state_dict").

(** [model.eval()] *)
Definition eval (m : Model) : Model :=
  {| weights := weights m; training := false |}.

Record ModelManager : Type := {
  mm_model_path : string;
  mm_model : Model;
  last_modified : option Qc;
}.

(** [checkpoint.get('round', 'N/A')] inside the f-string *)
Definition round_text (ck : checkpoint) : string :=
  match ck_round ck with
  | Some r => pretty r
  | None => "N/A"
  end.

Definition load_model (fs : FS.t) (self : ModelManager) : M ModelManager :=
  emit (PathExists (mm_model_path self));;
  if negb (FS.exists_ fs (mm_model_path self)) then
    raise (FileNotFoundError ("Model file not found: " +:+ mm_model_path self))
  else
    emit (Getmtime (mm_model_path self));;
    current_modified ← lift (FS.getmtime fs (mm_model_path self));
    if decide (last_modified self ≠ Some current_modified) then
      print ("Loading model from " +:+ mm_model_path self);;
      emit (TorchLoad (mm_model_path self));;
      checkpoint ← lift (torch_load fs (mm_model_path self));
      parameters_dict ←
        lift (match ck_model_state_dict checkpoint with
              | Some d => Return d
              | None => Raise (KeyError "model_state_dict")
              end);
      let tensor_state_dict := parameters_dict in
      model ← lift (load_state_dict (mm_model self) tensor_state_dict);
      let model := eval model in
      print ("Model loaded successfully (Round: " +:+ round_text checkpoint
             +:+ ")");;
      mret {| mm_model_path := mm_model_path self;
              mm_model := model;
              last_modified := Some current_modified |}
    else mret self.

(** [get_model] returns [self.model]; the manager is returned too, as
    [load_model] may have changed it. *)
Definition get_model (fs : FS.t) (self : ModelManager) : M (ModelManager * Model) :=
  self ← load_model fs self;
  mret (self, mm_model self).

(** [ModelManager(model_path)]; [fresh] is the network
    [mobilenet_v3_small(num_classes=10)] just built. *)
Definition ModelManager_init (fs : FS.t) (fresh : Model) (model_path : string)
    : M ModelManager :=
  load_model fs {| mm_model_path := model_path; mm_model := fresh;
                   last_modified := None |}.

(** [InferenceProcessor]: [__init__] assigns [device], [transform] and
    [labels]; [use_mnist] is read by [preprocess_frame] but no assignment
    to it exists, so it is [None] (attribute absent) on every object
    [InferenceProcessor_init] builds. *)
Record InferenceProcessor : Type := {
  labels : gmap nat string;
  use_mnist : option bool;
}.

Definition InferenceProcessor_init : InferenceProcessor :=
  {| labels := list_to_map
       [(0, "airplane"); (1, "automobile"); (2, "bird"); (3, "cat");
        (4, "deer"); (5, "dog"); (6, "frog"); (7, "horse"); (8, "ship");
        (9, "truck")];
     use_mnist := None |}.

Global Instance Rlt_rel_dec : RelDecision Rlt := Rlt_dec.

(** [F.softmax(outputs, dim=1)] on the single row of the batch *)
Definition exp_sum (row : list R) : R := foldr Rplus 0%R (exp <$> row).
Definition softmax (row : list R) : list R :=
  (λ x, exp x / exp_sum row)%R <$> row.

Definition get_prediction (self : InferenceProcessor) (outputs : list R)
    (confidence_threshold : R) : result (string * R) :=
  let probabilities := softmax outputs in
  '(confidence, prediction) ← torch_max Rlt probabilities;
  if decide (confidence < confidence_threshold)%R then
    Return ("Low confidence", 0%R)
  else
    let label := default "Unknown" (labels self !! prediction) in
    Return (label, confidence).

(** [str(e)] *)
Definition exception_str (e : exception) : string :=
  match e with
  | KeyError k => "'" +:+ k +:+ "'"
  | IndexError _ => "index out of range"
  | ZeroDivisionError => "float division by zero"
  | AttributeError m => m
  | FileNotFoundError m => m
  | RuntimeError m => m
  | EOFError => "Ran out of input"
  | TypeError m => m
  | KeyboardInterrupt => ""
  end.

(** What the outside world supplies to one pass through the [while True]
    body. *)
Record tick (Frame : Type) : Type := {
  interrupt : bool;        (* Ctrl-C arrives while [cap.read()] waits *)
  read : option Frame;     (* [cap.read()]: [None] stands for [ret = False] *)
  files : FS.t;            (* the file system as [get_model] finds it *)
  now : Qc;                (* [time.time()] *)
  key : Z;                 (* [cv2.waitKey(1)] *)
}.
Arguments interrupt {Frame} _.
Arguments read {Frame} _.
Arguments files {Frame} _.
Arguments now {Frame} _.
Arguments key {Frame} _.

(** The variables the loop carries; [model_manager] is the object the
    caller passed in. *)
Record loop_state : Type := {
  model_manager : ModelManager;
  fps_time : Qc;
  frame_count : Z;
  fps : Qc;
}.

(** How the [while True] loop stands once the supplied ticks are used up:
    still going, or left through [break]. *)
Inductive loop_status : Type :=
  | Running (st : loop_state)
  | Broke.

Section RunInference.
Context {Frame Tensor : Type}.
(** The two image pipelines of [preprocess_frame] (cv2, PIL and the
    torchvision transform) and the network's forward pass are taken as
    given. *)
Variable mnist_pipeline : Frame → Tensor.
Variable rgb_pipeline : Frame → Tensor.
Variable forward : Model → Tensor → list R.

Definition preprocess_frame (self : InferenceProcessor) (frame : Frame)
    : result Tensor :=
  match use_mnist self with
  | None =>
      Raise (AttributeError
               "'InferenceProcessor' object has no attribute 'use_mnist'")
  | Some true => Return (mnist_pipeline frame)
  | Some false => Return (rgb_pipeline frame)
  end.

Variable rtsp_url : string.
Variable processor : InferenceProcessor.
Variable confidence_threshold : R.

(** One pass through the body of [while True]: [None] is [break]. *)
Definition iteration (tk : tick Frame) (st : loop_state) : M (option loop_state) :=
  emit CapRead;;
  if interrupt tk then raise KeyboardInterrupt
  else match read tk with
  | None =>
      print "Error reading frame, attempting to reconnect...";;
      emit CapRelease;;
      emit (Sleep 1);;
      emit (VideoCapture rtsp_url);;
      mret (Some st)
  | Some frame =>
      '(manager, model) ← get_model (files tk) (model_manager st);
      processed_frame ← lift (preprocess_frame processor frame);
      let outputs := forward model processed_frame in
      '(label, confidence) ←
        lift (get_prediction processor outputs confidence_threshold);
      let frame_count := (frame_count st + 1)%Z in
      '(fps, fps_time) ←
        (if decide (frame_count `mod` 30 = 0)%Z then
           if decide (now tk - fps_time st = 0)%Qc
           then raise ZeroDivisionError
           else mret ((Qc_of_Z 30 / (now tk - fps_time st))%Qc, now tk)
         else mret (fps st, fps_time st));
      emit (PutText "Label: " (OLabel label));;
      emit (PutText "Conf: " (OConfidence confidence));;
      emit (PutText "FPS: " (OFps fps));;
      emit Imshow;;
      emit (WaitKey 1);;
      if decide (Z.land (key tk) 255 = 113)%Z then mret None
      else mret (Some {| model_manager := manager; fps_time := fps_time;
                         frame_count := frame_count; fps := fps |})
  end.

(** The loop over the ticks supplied so far. *)
Fixpoint loop (ticks : list (tick Frame)) (st : loop_state) : M loop_status :=
  match ticks with
  | [] => mret (Running st)
  | tk :: rest =>
      r ← iteration tk st;
      match r with
      | Some st' => loop rest st'
      | None => mret Broke
      end
  end.

(** The [finally] clause *)
Definition cleanup : M unit := emit CapRelease;; emit DestroyAllWindows.

(** The [try] / [except KeyboardInterrupt] / [finally] around the loop.
    While the ticks supplied have not ended the loop ([Running]) no clause
    runs yet. *)
Definition try_loop (body : M loop_status) : M loop_status :=
  λ tr,
    match body tr with
    | (Return (Running st), tr') => (Return (Running st), tr')
    | (Return Broke, tr') => (cleanup;; mret Broke) tr'
    | (Raise KeyboardInterrupt, tr') =>
        (print (newline +:+ "Stopping inference...");; cleanup;; mret Broke) tr'
    | (Raise e, tr') => (cleanup;; raise e) tr'
    end.

(** [opened] is [cap.isOpened()] after the first [cv2.VideoCapture], and
    [start] the first [time.time()]. *)
Definition run_inference (opened : bool) (start : Qc)
    (manager : ModelManager) (ticks : list (tick Frame)) : M loop_status :=
  emit (VideoCapture rtsp_url);;
  if negb opened then
    raise (RuntimeError ("Could not open RTSP stream: " +:+ rtsp_url))
  else
    print ("Starting inference on " +:+ rtsp_url);;
    try_loop (loop ticks {| model_manager := manager; fps_time := start;
                            frame_count := 0; fps := 0%Qc |}).

End RunInference.

(** The [try] statement of [main] around a body: exit code [0] when the
    body returns or is interrupted, [1] on any [Exception]. *)
Definition main_try (body : M unit) : M Z :=
  λ tr,
    match body tr with
    | (Return _, tr') => (Return 0%Z, tr')
    | (Raise e, tr') =>
        if is_Exception e then
          (print ("Error: " +:+ exception_str e);; mret 1%Z) tr'
        else (print (newline +:+ "Exiting...");; mret 0%Z) tr'
    end.

(** The body of the [try] in [main].  Its first statement is
    [ModelManager(args.model_path, args.mnist)]: the arguments are evaluated
    first, and [args.mnist] names an option the parser does not define; the
    call itself passes two arguments to an [__init__] that takes one. *)
Definition main_body (args : Namespace) : M unit :=
  let path := model_path args in
  mnist ← (raise (namespace_missing "mnist") : M bool);
  raise (TypeError
    "ModelManager.__init__() takes 2 positional arguments but 3 were given").

Definition main (args : Namespace) : M Z := main_try (main_body args).

End Inference.

(** ** Reference definitions

    The quantities the statements below compare the code with, written
    from their mathematical meaning rather than from the code. *)

(** The example-count-weighted mean of [(example_count, value)] pairs:
    [sum(example_count_i * value_i) / sum(example_count_i)]. *)
Definition weighted_mean (updates : list (Z * Qc)) : Qc :=
  (foldr (λ u acc, Qc_of_Z u.1 * u.2 + acc) 0 updates
   / Qc_of_Z (foldr (λ u acc, u.1 + acc)%Z 0%Z updates))%Qc.

(** The unweighted arithmetic mean. *)
Definition arithmetic_mean (values : list Qc) : Qc :=
  (foldr Qcplus 0 values / Qc_of_Z (Z.of_nat (length values)))%Qc.

(** Client [nm = (num_examples, metrics)] reports the pair [u]. *)
Definition reports (nm : Z * gmap string Qc) (u : Z * Qc) : Prop :=
  nm.1 = u.1 ∧ nm.2 !! "accuracy" = Some u.2.

(** A computation that performs no file-system step. *)
Definition keeps_writes {A} (m : M A) : Prop :=
  ∀ tr, writes (m tr).2 = writes tr.

(** The states of the file system that another process can find while the
    steps [ops] are carried out one after the other: the state after each
    prefix of [ops]. *)
Definition state_after (now : Qc) (fs : FS.t) (ops : list FS.op) (k : nat) : FS.t :=
  FS.run now fs (take k ops).

(** The two paths [aggregate_fit] writes to and the dictionary it saves. *)
Definition round_path (dir : string) (server_round : Z) : string :=
  Server.path_join dir ("model_round_" +:+ pretty server_round +:+ ".pt").

Definition latest_path (dir : string) : string :=
  Server.path_join dir "model_latest.pt".

Definition published (keys : list string) (ndarrays : list tensor)
    (server_round : Z) (metrics : gmap string metric_value) : checkpoint :=
  {| ck_round := Some server_round;
     ck_model_state_dict := Some (Server.dict_of_zip keys ndarrays);
     ck_metrics := Some metrics |}.

(** A small round used in the examples below: an image is its own class
    id, the network scores class [n] highest for image [n], one batch of
    three images of which the third is labelled differently. *)
Definition example_model (imgs : list nat) : list (list Qc) :=
  (λ n, (λ i, if decide (i = n) then 1%Qc else 0%Qc) <$> seq 0 10) <$> imgs.

Definition example_criterion (_ : list (list Qc)) (_ : list nat) : Qc :=
  Q2Qc (1 # 2).

Definition example_loader : list (Server.batch nat) :=
  [ {| Server.img := [0; 1; 2]; Server.label := [0; 1; 3] |} ].

Definition example_keys : list string := ["weight"; "bias"].
Definition example_ndarrays : list tensor := [[1%Qc; 1%Qc]; [0%Qc]].

Definition example_publish : result (option (list tensor) * gmap string metric_value)
                             * list event :=
  Server.aggregate_fit example_model example_criterion example_keys
    {| Server.save_dir := "saved_models" |} 2
    (Some example_ndarrays, ∅) example_loader [].

(** The checkpoint of an earlier round, already published as "latest". *)
Definition example_old_checkpoint : checkpoint :=
  {| ck_round := Some 1%Z;
     ck_model_state_dict := Some {[ "weight" := [0%Qc; 0%Qc]; "bias" := [0%Qc] ]};
     ck_metrics := Some ∅ |}.

Definition example_old_fs : gmap string FS.file :=
  {[ latest_path "saved_models" :=
       {| FS.data := serialize example_old_checkpoint; FS.mtime := 1%Qc |} ]}.

(** Whether a call returned. *)
Definition returned {A} (r : result A) : bool :=
  match r with
  | Return _ => true
  | Raise _ => false
  end.

Definition example_metrics : gmap string metric_value :=
  match example_publish.1 with
  | Return (_, m) => m
  | Raise _ => ∅
  end.

(** What [load_model] leaves in the manager after loading the state dict
    [d] from a file whose modification time is [t]. *)
Definition reloaded (self : Inference.ModelManager) (d : state_dict) (t : Qc)
    : Inference.ModelManager :=
  {| Inference.mm_model_path := Inference.mm_model_path self;
     Inference.mm_model := {| Inference.weights := d; Inference.training := false |};
     Inference.last_modified := Some t |}.

(** The events of a call of [load_model] that reloads, and of one that
    finds the marker unchanged. *)
Definition reload_events (path : string) (ck : checkpoint) : list event :=
  [ PathExists path; Getmtime path;
    Print (Line ("Loading model from " +:+ path));
    TorchLoad path;
    Print (Line ("Model loaded successfully (Round: "
                 +:+ Inference.round_text ck +:+ ")")) ].

Definition check_events (path : string) : list event :=
  [ PathExists path; Getmtime path ].

(** Two published checkpoints that differ in their round only, and a
    manager that has loaded neither. *)
Definition example_weights : state_dict := {[ "w" := [1%Qc; 1%Qc] ]}.

Definition example_file (server_round : Z) : FS.file :=
  {| FS.data := serialize {| ck_round := Some server_round;
                             ck_model_state_dict := Some example_weights;
                             ck_metrics := Some ∅ |};
     FS.mtime := Qc_of_Z 5 |}.

Definition example_manager : Inference.ModelManager :=
  {| Inference.mm_model_path := "model_latest.pt";
     Inference.mm_model :=
       {| Inference.weights := {[ "w" := [0%Qc; 0%Qc] ]};
          Inference.training := true |};
     Inference.last_modified := None |}.

(** What one failed [cap.read()] makes the loop do. *)
Definition reconnect_events (rtsp_url : string) : list event :=
  [ CapRead;
    Print (Line "Error reading frame, attempting to reconnect...");
    CapRelease; Sleep 1; VideoCapture rtsp_url ].

(** A stream of the examples: frames carry no data, both pipelines and the
    network are constant. *)
Definition example_pipeline (_ : unit) : unit := ().
Definition example_forward (_ : Inference.Model) (_ : unit) : list R :=
  replicate 10 0%R.

(** No key pressed ([cv2.waitKey] returns [-1]), no Ctrl-C: one tick with a
    failed read, and one with a frame read while the checkpoint file is
    gone. *)
Definition example_failed_read : Inference.tick unit :=
  {| Inference.interrupt := false; Inference.read := None;
     Inference.files := ∅; Inference.now := 0%Qc; Inference.key := (-1)%Z |}.

Definition example_frame_without_file : Inference.tick unit :=
  {| Inference.interrupt := false; Inference.read := Some ();
     Inference.files := ∅; Inference.now := 0%Qc; Inference.key := (-1)%Z |}.

(** A tick on which Ctrl-C arrives, and one with a frame read while the
    checkpoint of round 2 is in place. *)
Definition example_interrupt : Inference.tick unit :=
  {| Inference.interrupt := true; Inference.read := None;
     Inference.files := ∅; Inference.now := 0%Qc; Inference.key := (-1)%Z |}.

Definition example_frame_with_file : Inference.tick unit :=
  {| Inference.interrupt := false; Inference.read := Some ();
     Inference.files := {[ "model_latest.pt" := example_file 2 ]};
     Inference.now := 0%Qc; Inference.key := (-1)%Z |}.


Definition example_loop_state : Inference.loop_state :=
  {| Inference.model_manager := example_manager;
     Inference.fps_time := 0%Qc; Inference.frame_count := 0;
     Inference.fps := 0%Qc |}.

(** A tick that carries a stop signal: Ctrl-C, or the [q] key after a
    frame. *)
Definition stop_signal {Frame} (tk : Inference.tick Frame) : Prop :=
  Inference.interrupt tk = true
  ∨ (is_Some (Inference.read tk) ∧ Z.land (Inference.key tk) 255 = 113%Z).

(** ** Reference quantities of an evaluation run *)

Definition Qc_of_nat (n : nat) : Qc := Qc_of_Z (Z.of_nat n).

(** The classes the network predicts for the images of a batch:
    [outputs.max(1)] on [model(inputs)]. *)
Definition predictions {Img} (model : list Img → list (list Qc))
    (b : Server.batch Img) : result (list nat) :=
  mapM (λ row, snd <$> torch_max Qclt row) (model (Server.img b)).

(** [predss] lists, batch by batch, the predicted classes, and every label
    and every predicted class is one of the ten classes. *)
Definition evaluated {Img} (model : list Img → list (list Qc))
    (testloader : list (Server.batch Img)) (predss : list (list nat)) : Prop :=
  Forall2 (λ b preds, predictions model b = Return preds
                      ∧ Forall (λ p, p < 10) preds
                      ∧ Forall (λ l, l < 10) (Server.label b))
          testloader predss.

(** The (label, prediction) pairs of the whole run, in order. *)
Definition sample_pairs {Img} (testloader : list (Server.batch Img))
    (predss : list (list nat)) : list (nat * nat) :=
  mjoin (zip_with (λ b preds, zip (Server.label b) preds) testloader predss).

Definition total_samples (pairs : list (nat * nat)) : nat := length pairs.
Definition total_correct (pairs : list (nat * nat)) : nat :=
  length (filter (λ lp, lp.1 = lp.2) pairs).

(** The losses of the batches. *)
Definition batch_losses {Img} (model : list Img → list (list Qc))
    (criterion : list (list Qc) → list nat → Qc)
    (testloader : list (Server.batch Img)) : list Qc :=
  (λ b, criterion (model (Server.img b)) (Server.label b)) <$> testloader.

(** The key of class [i] in the metrics and its name in the report. *)
Definition class_key (i : nat) : string :=
  match Server.label_name i with
  | Return name => "class_" +:+ pretty i +:+ "_" +:+ name +:+ "_acc"
  | Raise _ => ""
  end.

Definition class_title (i : nat) : string :=
  match Server.label_name i with
  | Return name => "Class " +:+ pretty i +:+ " (" +:+ name +:+ ")"
  | Raise _ => ""
  end.

(** The evaluation of the example round, and what it reports. *)
Definition example_test : result (Qc * tfloat * gmap string metric_value)
                          * list event :=
  Server.test example_model example_criterion example_loader [].

Definition overall_of (r : result (Qc * tfloat * gmap string metric_value))
    : option tfloat :=
  match r with
  | Return (_, overall_accuracy, _) => Some overall_accuracy
  | Raise _ => None
  end.

Definition metric_of (r : result (Qc * tfloat * gmap string metric_value))
    (k : string) : option metric_value :=
  match r with
  | Return (_, _, metrics) => metrics !! k
  | Raise _ => None
  end.

(** ** Reference definitions for the further properties *)

(** Every example count multiplied by [k]. *)
Definition scale_counts (k : Z) (metrics : list (Z * gmap string Qc))
    : list (Z * gmap string Qc) :=
  (λ nm, (k * nm.1, nm.2)%Z) <$> metrics.

(** How often class [i] occurs in a list of class ids. *)
Definition count_of (i : nat) (l : list nat) : nat :=
  length (filter (λ x, x = i) l).

(** The labels of the samples predicted correctly. *)
Definition correct_labels (pairs : list (nat * nat)) : list nat :=
  (filter (λ lp, lp.1 = lp.2) pairs).*1.

(** The accuracy [test] reports for a class with [samples] samples of which
    [correct] were predicted correctly. *)
Definition class_percentage (correct samples : nat) : tfloat :=
  if decide (samples = 0) then Fin 0%Qc
  else Fin (Qc_of_nat correct / Qc_of_nat samples * Qc_of_Z 100)%Qc.

(** The three keys of the metrics that are not per-class accuracies. *)
Definition plain_keys : list string :=
  ["accuracy"; "loss"; "prediction_distribution"].

(** A manager on the inference side that watches the "latest" file of the
    example round and has loaded nothing yet. *)
Definition example_watcher : Inference.ModelManager :=
  {| Inference.mm_model_path := latest_path "saved_models";
     Inference.mm_model :=
       {| Inference.weights := {[ "weight" := [0%Qc; 0%Qc]; "bias" := [0%Qc] ]};
          Inference.training := true |};
     Inference.last_modified := None |}.

(** * Properties *)

(** ** Sums *)

Lemma sum_float_from (l : list Qc) (a : Qc) :
  fold_left Qcplus l a = (a + foldr Qcplus 0 l)%Qc.
Proof.
  revert a. induction l as [|x l IH]; intros a; simpl.
  - ring.
  - rewrite IH. ring.
Qed.

Lemma sum_float_foldr (l : list Qc) : sum_float l = foldr Qcplus 0%Qc l.
Proof. unfold sum_float. rewrite sum_float_from. ring. Qed.

Lemma sum_int_from (l : list Z) (a : Z) :
  fold_left Z.add l a = (a + foldr Z.add 0 l)%Z.
Proof.
  revert a. induction l as [|x l IH]; intros a; simpl.
  - lia.
  - rewrite IH. lia.
Qed.

Lemma sum_int_foldr (l : list Z) : sum_int l = foldr Z.add 0%Z l.
Proof. unfold sum_int. rewrite sum_int_from. lia. Qed.

(** ** weighted_average *)

Section WeightedAverage.
Import Server.

Lemma accuracies_of_reports metrics updates :
  Forall2 reports metrics updates →
  accuracies_of metrics = Return ((λ u, Qc_of_Z u.1 * u.2)%Qc <$> updates).
Proof.
  induction 1 as [|[n m] [c a] metrics updates [Hn Ha] _ IH]; simpl in *.
  - reflexivity.
  - unfold getitem. rewrite Ha. simpl. rewrite IH. simpl.
    unfold float_of_int. by subst.
Qed.

Lemma examples_of_reports metrics updates :
  Forall2 reports metrics updates → examples_of metrics = updates.*1.
Proof.
  unfold examples_of.
  induction 1 as [|[n m] [c a] metrics updates [Hn Ha] _ IH]; simpl in *.
  - reflexivity.
  - by rewrite IH, Hn.
Qed.

Lemma weighted_sum_foldr (updates : list (Z * Qc)) :
  foldr Qcplus 0%Qc ((λ u, Qc_of_Z u.1 * u.2)%Qc <$> updates)
  = foldr (λ u acc, Qc_of_Z u.1 * u.2 + acc)%Qc 0%Qc updates.
Proof. induction updates as [|u l IH]; csimpl; [done | by rewrite IH]. Qed.

Lemma count_sum_foldr (updates : list (Z * Qc)) :
  foldr Z.add 0%Z updates.*1 = foldr (λ u acc, u.1 + acc)%Z 0%Z updates.
Proof. induction updates as [|u l IH]; csimpl; [done | by rewrite IH]. Qed.

Lemma weighted_average_reports metrics updates :
  Forall2 reports metrics updates →
  foldr (λ u acc, u.1 + acc)%Z 0%Z updates ≠ 0%Z →
  weighted_average metrics = Return {[ "accuracy" := weighted_mean updates ]}.
Proof.
  intros Hrep Htotal. unfold weighted_average.
  rewrite (accuracies_of_reports _ _ Hrep). simpl.
  rewrite (examples_of_reports _ _ Hrep).
  rewrite sum_float_foldr, sum_int_foldr, weighted_sum_foldr, count_sum_foldr.
  unfold truediv. rewrite decide_False by done. simpl.
  reflexivity.
Qed.

Lemma equal_counts_sums (c : Z) (updates : list (Z * Qc)) :
  Forall (λ u, u.1 = c) updates →
  foldr (λ u acc, Qc_of_Z u.1 * u.2 + acc)%Qc 0%Qc updates
    = (Qc_of_Z c * foldr Qcplus 0 updates.*2)%Qc
  ∧ Qc_of_Z (foldr (λ u acc, u.1 + acc)%Z 0%Z updates)
    = (Qc_of_Z c * Qc_of_Z (Z.of_nat (length updates.*2)))%Qc.
Proof.
  induction 1 as [|[n a] l Hn _ [IH1 IH2]]; csimpl in *.
  - change (Z.of_nat 0) with 0%Z. rewrite Z2Qc_inj_0. split; ring.
  - subst n. rewrite IH1. split; [ring | ].
    rewrite Z2Qc_inj_add, IH2.
    rewrite Nat2Z.inj_succ, <- Z.add_1_r, Z2Qc_inj_add, Z2Qc_inj_1. ring.
Qed.

Lemma equal_counts_mean (c : Z) (updates : list (Z * Qc)) :
  c ≠ 0%Z →
  Forall (λ u, u.1 = c) updates →
  weighted_mean updates = arithmetic_mean updates.*2.
Proof.
  intros Hc Hall. unfold weighted_mean, arithmetic_mean.
  destruct (equal_counts_sums c updates Hall) as [-> ->].
  assert (Hc' : Qc_of_Z c ≠ 0%Qc).
  { rewrite <- Z2Qc_inj_0. by intros ?%Z2Qc_inj. }
  destruct updates as [|u l]; csimpl.
  - unfold Qcdiv. ring.
  - set (n := Qc_of_Z (Z.of_nat (S (length l.*2)))).
    assert (Hn : n ≠ 0%Qc).
    { unfold n. rewrite <- Z2Qc_inj_0. intros ?%Z2Qc_inj. lia. }
    field. split; done.
Qed.

End WeightedAverage.

(** C1: for a non-empty sequence of client reports whose example counts sum
    to a positive total, [weighted_average] returns the
    example-count-weighted mean of the reported values,
    [sum(n_i * v_i) / sum(n_i)]; when every report carries the same example
    count, that is the unweighted arithmetic mean of the values. *)
Theorem weighted_average_is_weighted_mean
    (metrics : list (Z * gmap string Qc)) (updates : list (Z * Qc)) :
  metrics ≠ [] →
  Forall2 reports metrics updates →
  (0 < foldr Z.add 0 updates.*1)%Z →
  Server.weighted_average metrics
    = Return {[ "accuracy" := weighted_mean updates ]}
  ∧ (∀ c : Z, Forall (λ u, u.1 = c) updates →
       Server.weighted_average metrics
         = Return {[ "accuracy" := arithmetic_mean updates.*2 ]}).
Proof.
  intros Hne Hrep Hpos. rewrite count_sum_foldr in Hpos.
  assert (Hw := weighted_average_reports metrics updates Hrep ltac:(lia)).
  split; [exact Hw | ].
  intros c Hall. rewrite Hw. do 2 f_equal.
  apply (equal_counts_mean c); [ | done].
  intros ->. destruct Hrep as [|nm u ms us _ _]; [done | ].
  destruct (equal_counts_sums 0 _ Hall) as [_ H0].
  rewrite Z2Qc_inj_0 in H0.
  assert (Qc_of_Z (foldr (λ u acc, (u.1 + acc)%Z) 0%Z (u :: us)) = Qc_of_Z 0) as Hz.
  { rewrite H0, Z2Qc_inj_0. ring. }
  apply Z2Qc_inj in Hz. lia.
Qed.

Lemma weighted_average_is_weighted_mean_witness :
  Server.weighted_average
    [(4%Z, {[ "accuracy" := Q2Qc (1 # 2) ]}); (4%Z, {[ "accuracy" := 1%Qc ]})]
  = Return {[ "accuracy" := arithmetic_mean [Q2Qc (1 # 2); 1%Qc] ]}.
Proof.
  refine (proj2 (weighted_average_is_weighted_mean
            [(4%Z, {[ "accuracy" := Q2Qc (1 # 2) ]});
             (4%Z, {[ "accuracy" := 1%Qc ]})]
            [(4%Z, Q2Qc (1 # 2)); (4%Z, 1%Qc)] _ _ _) 4%Z _).
  - discriminate.
  - repeat constructor.
  - simpl. lia.
  - repeat constructor.
Defined.

Lemma accuracies_of_raise metrics e :
  Server.accuracies_of metrics = Raise e → e = KeyError "accuracy".
Proof.
  induction metrics as [|[n m] metrics IH]; simpl; [discriminate | ].
  unfold Server.getitem. destruct (m !! "accuracy"); simpl.
  - destruct (Server.accuracies_of metrics); simpl; [discriminate | ].
    intros [= <-]. by apply IH.
  - by intros [= <-].
Qed.

Lemma accuracies_of_present metrics :
  Forall (λ nm : Z * gmap string Qc, is_Some (nm.2 !! "accuracy")) metrics →
  ∃ accuracies, Server.accuracies_of metrics = Return accuracies.
Proof.
  induction 1 as [|[n m] metrics [a Ha] _ [accs IH]]; simpl in *.
  - by eexists.
  - unfold Server.getitem. rewrite Ha. simpl. rewrite IH. simpl. by eexists.
Qed.

Lemma sum_int_zero (metrics : list (Z * gmap string Qc)) :
  Forall (λ nm, nm.1 = 0%Z) metrics →
  sum_int (Server.examples_of metrics) = 0%Z.
Proof.
  rewrite sum_int_foldr. unfold Server.examples_of.
  induction 1 as [|[n m] metrics Hn _ IH]; simpl in *; [done | lia].
Qed.

(** C2, as the code has it: when every example count is [0] the call
    returns no value.  It fails in the division itself, with Python's
    [ZeroDivisionError] (or earlier with [KeyError] when a report carries no
    ["accuracy"]); with every report carrying an accuracy the error is
    [ZeroDivisionError]. *)
Theorem zero_weight_raises_ZeroDivisionError
    (metrics : list (Z * gmap string Qc)) :
  Forall (λ nm, nm.1 = 0%Z) metrics →
  (∃ e, Server.weighted_average metrics = Raise e
        ∧ (e = ZeroDivisionError ∨ e = KeyError "accuracy"))
  ∧ (Forall (λ nm, is_Some (nm.2 !! "accuracy")) metrics →
     Server.weighted_average metrics = Raise ZeroDivisionError).
Proof.
  intros Hzero. unfold Server.weighted_average.
  rewrite (sum_int_zero _ Hzero). split.
  - destruct (Server.accuracies_of metrics) as [accs|e] eqn:Hacc; simpl.
    + exists ZeroDivisionError. split; [done | by left].
    + exists e. split; [done | right]. by eapply accuracies_of_raise.
  - intros Hpresent.
    destruct (accuracies_of_present _ Hpresent) as [accs ->]. done.
Qed.

Lemma zero_weight_raises_ZeroDivisionError_witness :
  Server.weighted_average
    [(0%Z, {[ "accuracy" := Q2Qc (1 # 2) ]}); (0%Z, {[ "accuracy" := 1%Qc ]})]
  = Raise ZeroDivisionError.
Proof.
  apply zero_weight_raises_ZeroDivisionError.
  - repeat constructor.
  - repeat constructor; by eexists.
Defined.

(** C2 fails as stated: with every example count [0] the error raised is
    not an [InvalidUpdateError]. *)
Lemma zero_weight_not_InvalidUpdateError :
  let metrics : list (Z * gmap string Qc) :=
    [(0%Z, {[ "accuracy" := Q2Qc (1 # 2) ]}); (0%Z, {[ "accuracy" := 1%Qc ]})] in
  Forall (λ nm, nm.1 = 0%Z) metrics
  ∧ ¬ ∃ e, Server.weighted_average metrics = Raise e
           ∧ exception_name e = "InvalidUpdateError".
Proof.
  split; [repeat constructor | ].
  intros (e & He & Hname). vm_compute in He. injection He as <-.
  discriminate Hname.
Qed.

(** ** The checkpoint archive and the file system *)

Lemma deserialize_serialize (ck : checkpoint) :
  deserialize (serialize ck) = Return ck.
Proof. by destruct ck as [[r|] [d|] [m|]]. Qed.

(** A reader that finds only a proper prefix of an archive cannot open it. *)
Lemma deserialize_prefix (ck : checkpoint) (j : nat) :
  j < length (serialize ck) →
  raises (deserialize (take j (serialize ck))).
Proof.
  unfold raises.
  destruct ck as [[r|] [d|] [m|]]; simpl;
    destruct j as [|[|[|[|j]]]]; simpl; intros Hj; try lia; by eexists.
Qed.

Lemma run_app now fs ops1 ops2 :
  FS.run now fs (ops1 ++ ops2) = FS.run now (FS.run now fs ops1) ops2.
Proof. unfold FS.run. by rewrite fold_left_app. Qed.

Lemma run_other_path now (ops : list FS.op) (q : string) :
  Forall (λ o, FS.op_path o ≠ q) ops →
  ∀ fs : gmap string FS.file, FS.run now fs ops !! q = fs !! q.
Proof.
  induction 1 as [|o ops Ho _ IH]; intros fs; simpl; [done | ].
  change (FS.run now (FS.step now fs o) ops !! q = fs !! q).
  rewrite IH. destruct o as [p|p x]; simpl in *; by rewrite lookup_insert_ne.
Qed.

Lemma run_appends now (p : string) (l : list FS.piece) :
  ∀ (fs : gmap string FS.file) (d : list FS.piece),
  fs !! p = Some {| FS.data := d; FS.mtime := now |} →
  FS.run now fs (FS.Append p <$> l) !! p
    = Some {| FS.data := d ++ l; FS.mtime := now |}.
Proof.
  induction l as [|x l IH]; intros fs d Hfs; csimpl.
  - by rewrite app_nil_r.
  - change (FS.run now (FS.step now fs (FS.Append p x)) (FS.Append p <$> l) !! p
            = Some {| FS.data := d ++ x :: l; FS.mtime := now |}).
    rewrite (IH _ (d ++ [x])).
    + by rewrite <- app_assoc.
    + simpl. rewrite Hfs. simpl. by rewrite lookup_insert_eq.
Qed.

(** After [1 + j] steps of [torch.save] the file holds the first [j]
    records of the archive. *)
Lemma run_torch_save_prefix now (fs : gmap string FS.file) ck p (j : nat) :
  FS.run now fs (take (S j) (torch_save ck p)) !! p
    = Some {| FS.data := take j (serialize ck); FS.mtime := now |}.
Proof.
  unfold torch_save. rewrite firstn_cons, <- fmap_take.
  change (FS.run now (FS.step now fs (FS.Truncate p))
            (FS.Append p <$> take j (serialize ck)) !! p
          = Some {| FS.data := take j (serialize ck); FS.mtime := now |}).
  rewrite (run_appends now p _ _ []); [done | ].
  simpl. by rewrite lookup_insert_eq.
Qed.

Lemma run_torch_save now (fs : gmap string FS.file) ck p :
  FS.run now fs (torch_save ck p) !! p
    = Some {| FS.data := serialize ck; FS.mtime := now |}.
Proof.
  rewrite <- (take_ge (torch_save ck p) (S (length (serialize ck)))).
  - rewrite run_torch_save_prefix. by rewrite take_ge.
  - unfold torch_save. simpl. rewrite length_fmap. lia.
Qed.

Lemma torch_save_paths ck p :
  Forall (λ o, FS.op_path o = p) (torch_save ck p).
Proof.
  unfold torch_save. constructor; [done | ].
  apply Forall_fmap, Forall_true. done.
Qed.

Lemma torch_save_length ck p :
  length (torch_save ck p) = S (length (serialize ck)).
Proof. unfold torch_save. simpl. by rewrite length_fmap. Qed.

Lemma torch_load_after_save now (fs : gmap string FS.file) ck p :
  torch_load (FS.run now fs (torch_save ck p)) p = Return ck.
Proof.
  unfold torch_load. rewrite run_torch_save. simpl. apply deserialize_serialize.
Qed.

(** ** Traces *)

Lemma writes_app tr1 tr2 : writes (tr1 ++ tr2) = writes tr1 ++ writes tr2.
Proof. unfold writes. apply omap_app. Qed.

Lemma keeps_writes_ret {A} (a : A) : keeps_writes (mret a).
Proof. by intros tr. Qed.

Lemma keeps_writes_raise {A} e : keeps_writes (raise e : M A).
Proof. by intros tr. Qed.

Lemma keeps_writes_lift {A} (r : result A) : keeps_writes (lift r).
Proof. by intros tr. Qed.

Lemma keeps_writes_print l : keeps_writes (emit (Print l)).
Proof. intros tr. unfold emit. simpl. rewrite writes_app. simpl. by rewrite app_nil_r. Qed.

Lemma keeps_writes_bind {A B} (m : M A) (f : A → M B) :
  keeps_writes m → (∀ a, keeps_writes (f a)) → keeps_writes (m ≫= f).
Proof.
  intros Hm Hf tr. unfold mbind, M_bind. specialize (Hm tr).
  destruct (m tr) as [[a|e] tr']; simpl in *; [ | done].
  by rewrite Hf.
Qed.

Lemma keeps_writes_for_each {A S} (body : S → A → M S) (l : list A) :
  (∀ s x, keeps_writes (body s x)) → ∀ s, keeps_writes (for_each body l s).
Proof.
  intros Hbody. induction l as [|x l IH]; intros s; simpl.
  - apply keeps_writes_ret.
  - apply keeps_writes_bind; [apply Hbody | apply IH].
Qed.

Ltac keeps_writes :=
  repeat first
    [ apply keeps_writes_ret | apply keeps_writes_raise
    | apply keeps_writes_lift | apply keeps_writes_print
    | apply keeps_writes_for_each; intros
    | apply keeps_writes_bind; [ | intros ]
    | match goal with
      | |- keeps_writes (match ?x with _ => _ end) => destruct x
      | |- keeps_writes (let '(_, _) := ?x in _) => destruct x
      end ].

Lemma keeps_writes_test {Img} model criterion (testloader : list (Server.batch Img)) :
  keeps_writes (Server.test model criterion testloader).
Proof.
  unfold Server.test, Server.test_batch, Server.count_pair,
    Server.print_class_row, Server.print_distribution_row,
    Server.add_class_accuracy, print.
  keeps_writes.
Qed.


(** ** aggregate_fit: publishing a round *)

Lemma round_path_not_latest dir r : round_path dir r ≠ latest_path dir.
Proof.
  unfold round_path, latest_path, Server.path_join.
  intros H. apply (inj (String.app dir)) in H. simpl in H. discriminate H.
Qed.

Lemma aggregate_fit_writes {Img} model criterion keys self r nd am
    (testloader : list (Server.batch Img)) ret metrics tr :
  Server.aggregate_fit model criterion keys self r (Some nd, am) testloader []
    = (Return (ret, metrics), tr) →
  ret = Some nd
  ∧ writes tr
    = torch_save (published keys nd r metrics) (round_path (Server.save_dir self) r)
      ++ torch_save (published keys nd r metrics) (latest_path (Server.save_dir self)).
Proof.
  unfold Server.aggregate_fit.
  assert (Htest := keeps_writes_test model criterion testloader []).
  unfold mbind at 1. unfold M_bind at 1.
  destruct (Server.test model criterion testloader []) as [[[[loss acc] m]|e] tr0];
    [ | discriminate].
  simpl in Htest. unfold print, emit, mbind, M_bind. simpl.
  intros [= <- <- <-]. split; [done | ].
  rewrite !writes_app, Htest. reflexivity.
Qed.

Lemma torch_save_avoids ck p q :
  p ≠ q → Forall (λ o, FS.op_path o ≠ q) (torch_save ck p).
Proof.
  intros Hpq. eapply Forall_impl; [apply torch_save_paths | ].
  simpl. by intros o ->.
Qed.

(** C3, as the code has it: a successful publish writes the round-keyed
    file completely before it touches "latest"; it then writes "latest" in
    place with a second [torch.save] of the same dictionary (there is no
    rename), so while that write is under way "latest" holds a truncated
    archive that cannot be loaded; once the publish has finished both files
    hold the checkpoint of this round with its metrics. *)
Theorem publish_round_file_then_latest_in_place {Img}
    model criterion keys self r nd am (testloader : list (Server.batch Img))
    ret metrics tr (now : Qc) (fs : gmap string FS.file) :
  Server.aggregate_fit model criterion keys self r (Some nd, am) testloader []
    = (Return (ret, metrics), tr) →
  let ck := published keys nd r metrics in
  let round := round_path (Server.save_dir self) r in
  let latest := latest_path (Server.save_dir self) in
  let ops := writes tr in
  let n := length (torch_save ck round) in
  ops = torch_save ck round ++ torch_save ck latest
  ∧ (∀ k, k ≤ n → state_after now fs ops k !! latest = fs !! latest)
  ∧ torch_load (state_after now fs ops n) round = Return ck
  ∧ (∀ j, j < length (serialize ck) →
       raises (torch_load (state_after now fs ops (n + S j)) latest))
  ∧ torch_load (state_after now fs ops (length ops)) latest = Return ck
  ∧ torch_load (state_after now fs ops (length ops)) round = Return ck.
Proof.
  intros Hrun ck round latest ops n.
  destruct (aggregate_fit_writes _ _ _ _ _ _ _ _ _ _ _ Hrun) as [_ Hops].
  fold ck round latest ops in Hops.
  assert (Hne : round ≠ latest) by apply round_path_not_latest.
  unfold state_after. rewrite Hops. subst n. repeat split.
  - intros k Hk. rewrite take_app_le by done.
    apply run_other_path. apply Forall_take. by apply torch_save_avoids.
  - rewrite take_app_length. apply torch_load_after_save.
  - intros j Hj. rewrite take_app_add.
    rewrite run_app. unfold torch_load. rewrite run_torch_save_prefix. simpl.
    by apply deserialize_prefix.
  - rewrite firstn_all, run_app. apply torch_load_after_save.
  - rewrite firstn_all, run_app. unfold torch_load.
    rewrite run_other_path by (by apply torch_save_avoids).
    rewrite run_torch_save. apply deserialize_serialize.
Qed.

Lemma example_publish_returned :
  example_publish
  = (Return (Some example_ndarrays, example_metrics), example_publish.2).
Proof.
  assert (Hret : returned example_publish.1 = true) by (vm_compute; reflexivity).
  unfold example_metrics.
  destruct example_publish as [[[ret metrics]|e] tr] eqn:Hrun;
    [ | discriminate Hret].
  unfold example_publish in Hrun.
  destruct (aggregate_fit_writes _ _ _ _ _ _ _ _ _ _ _ Hrun) as [-> _].
  reflexivity.
Defined.

Lemma publish_round_file_then_latest_in_place_witness :
  torch_load (state_after 2%Qc example_old_fs (writes example_publish.2)
                (length (writes example_publish.2)))
             (latest_path "saved_models")
  = Return (published example_keys example_ndarrays 2 example_metrics).
Proof.
  exact (proj1 (proj2 (proj2 (proj2 (proj2
    (publish_round_file_then_latest_in_place
       example_model example_criterion example_keys
       {| Server.save_dir := "saved_models" |} 2 example_ndarrays ∅
       example_loader (Some example_ndarrays) example_metrics
       example_publish.2 2%Qc example_old_fs
       example_publish_returned)))))).
Defined.

(** C3 fails as stated: "latest" is not replaced in one step.  In the
    example round the old "latest" loads before the publish, and after
    the sixth file-system step of the publish (the round-keyed file is
    written, "latest" has just been opened for writing) a reader finds
    "latest" empty. *)
Lemma publish_latest_observed_incomplete :
  let ops := writes example_publish.2 in
  returned example_publish.1 = true
  ∧ returned (torch_load example_old_fs (latest_path "saved_models")) = true
  ∧ 6 ≤ length ops
  ∧ torch_load (state_after 2%Qc example_old_fs ops 6)
               (latest_path "saved_models")
    = Raise EOFError.
Proof.
  split; [ | split; [ | split]].
  - vm_compute. reflexivity.
  - vm_compute. reflexivity.
  - vm_compute. lia.
  - vm_compute. reflexivity.
Qed.

(** ** load_model and get_model *)

Section LoadModel.
Import Inference.

Lemma exists_lookup (fs : gmap string FS.file) p f :
  fs !! p = Some f → FS.exists_ fs p = true.
Proof. intros H. unfold FS.exists_. apply bool_decide_eq_true. by eexists. Qed.

Lemma load_model_changed fs self f ck d tr :
  fs !! mm_model_path self = Some f →
  last_modified self ≠ Some (FS.mtime f) →
  deserialize (FS.data f) = Return ck →
  ck_model_state_dict ck = Some d →
  length <$> d = length <$> weights (mm_model self) →
  load_model fs self tr
  = (Return (reloaded self d (FS.mtime f)),
     tr ++ reload_events (mm_model_path self) ck).
Proof.
  intros Hf Hnew Hck Hd Hshape. unfold load_model, print, emit, lift, mbind, M_bind.
  rewrite (exists_lookup _ _ _ Hf). simpl.
  unfold FS.getmtime, torch_load. rewrite Hf. simpl.
  rewrite decide_True by done. rewrite Hck, Hd. simpl.
  unfold load_state_dict. rewrite decide_True by done. simpl.
  unfold reloaded, reload_events. by rewrite <- !app_assoc.
Qed.

Lemma load_model_unchanged fs self f tr :
  fs !! mm_model_path self = Some f →
  last_modified self = Some (FS.mtime f) →
  load_model fs self tr = (Return self, tr ++ check_events (mm_model_path self)).
Proof.
  intros Hf Hsame. unfold load_model, print, emit, lift, mbind, M_bind.
  rewrite (exists_lookup _ _ _ Hf). simpl.
  unfold FS.getmtime. rewrite Hf. simpl.
  rewrite decide_False by (by intros []).
  unfold check_events. by rewrite <- !app_assoc.
Qed.

End LoadModel.

(** C4, as the code has it: a call of [get_model] on an existing
    checkpoint file whose modification time differs from the recorded one
    loads the file, replaces the model's parameters by the checkpoint's
    state dict (the model left in evaluation mode) and records the file's
    modification time; the checkpoint's round is printed and not kept.
    With the modification time unchanged the manager and its model are
    returned as they are and the file is not loaded. *)
Theorem get_model_reloads_on_new_mtime fs self f tr :
  fs !! Inference.mm_model_path self = Some f →
  (∀ ck d,
     Inference.last_modified self ≠ Some (FS.mtime f) →
     deserialize (FS.data f) = Return ck →
     ck_model_state_dict ck = Some d →
     length <$> d = length <$> Inference.weights (Inference.mm_model self) →
     Inference.get_model fs self tr
     = (Return (reloaded self d (FS.mtime f),
                {| Inference.weights := d; Inference.training := false |}),
        tr ++ reload_events (Inference.mm_model_path self) ck))
  ∧ (Inference.last_modified self = Some (FS.mtime f) →
     Inference.get_model fs self tr
     = (Return (self, Inference.mm_model self),
        tr ++ check_events (Inference.mm_model_path self))
     ∧ TorchLoad (Inference.mm_model_path self)
       ∉ check_events (Inference.mm_model_path self)).
Proof.
  intros Hf. split.
  - intros ck d Hnew Hck Hd Hshape. unfold Inference.get_model, mbind, M_bind.
    by rewrite (load_model_changed fs self f ck d tr).
  - intros Hsame. split.
    + unfold Inference.get_model, mbind, M_bind.
      by rewrite (load_model_unchanged fs self f tr).
    + unfold check_events. intros H. repeat (apply elem_of_cons in H as [H|H]; [discriminate H | ]).
      by apply elem_of_nil in H.
Qed.

Lemma example_manager_loads (r : Z) (tr : list event) :
  Inference.load_model {[ "model_latest.pt" := example_file r ]} example_manager tr
  = (Return (reloaded example_manager example_weights (Qc_of_Z 5)),
     tr ++ reload_events "model_latest.pt"
             {| ck_round := Some r;
                ck_model_state_dict := Some example_weights;
                ck_metrics := Some ∅ |}).
Proof.
  apply (load_model_changed _ example_manager (example_file r)).
  - apply lookup_singleton_eq.
  - discriminate.
  - apply deserialize_serialize.
  - reflexivity.
  - unfold example_weights. simpl. by rewrite !map_fmap_singleton.
Qed.

Lemma get_model_reloads_on_new_mtime_witness :
  Inference.get_model {[ "model_latest.pt" := example_file 2 ]} example_manager []
  = (Return (reloaded example_manager example_weights (Qc_of_Z 5),
             {| Inference.weights := example_weights;
                Inference.training := false |}),
     reload_events "model_latest.pt"
       {| ck_round := Some 2%Z;
          ck_model_state_dict := Some example_weights;
          ck_metrics := Some ∅ |}).
Proof.
  refine (proj1 (get_model_reloads_on_new_mtime
                   {[ "model_latest.pt" := example_file 2 ]} example_manager
                   (example_file 2) [] _) _ _ _ _ _ _).
  - apply lookup_singleton_eq.
  - discriminate.
  - apply deserialize_serialize.
  - reflexivity.
  - unfold example_weights. simpl. by rewrite !map_fmap_singleton.
Defined.

(** C4 fails as stated where it has the source round or version recorded:
    the manager keeps no such thing.  Loading a checkpoint of round 1 and
    loading a checkpoint of round 2 with the same parameters leave the same
    manager, so nothing that can be read off the manager is the round of
    the checkpoint it was loaded from. *)
Lemma load_model_records_no_round :
  ¬ ∃ source_version : Inference.ModelManager → Z,
      ∀ fs self self' tr tr' ck,
        Inference.load_model fs self tr = (Return self', tr') →
        Inference.last_modified self ≠ Inference.last_modified self' →
        torch_load fs (Inference.mm_model_path self) = Return ck →
        ck_round ck = Some (source_version self').
Proof.
  intros [source_version H].
  assert (Hload : ∀ r : Z,
    torch_load {[ "model_latest.pt" := example_file r ]} "model_latest.pt"
    = Return {| ck_round := Some r;
                ck_model_state_dict := Some example_weights;
                ck_metrics := Some ∅ |}).
  { intros r. unfold torch_load. rewrite lookup_singleton_eq.
    apply deserialize_serialize. }
  assert (H1 := H _ _ _ [] _ _ (example_manager_loads 1 []) ltac:(discriminate)
                  (Hload 1%Z)).
  assert (H2 := H _ _ _ [] _ _ (example_manager_loads 2 []) ltac:(discriminate)
                  (Hload 2%Z)).
  simpl in H1, H2. congruence.
Qed.

(** ** torch.max and softmax *)

Lemma max_from_spec (l pre : list R) (best : R) (best_i : nat) :
  pre !! best_i = Some best →
  (∀ x, x ∈ pre → (x <= best)%R) →
  (∀ j x, j < best_i → pre !! j = Some x → (x < best)%R) →
  ∀ c k, max_from Rlt best best_i (length pre) l = (c, k) →
  (pre ++ l) !! k = Some c
  ∧ (∀ x, x ∈ pre ++ l → (x <= c)%R)
  ∧ (∀ j x, j < k → (pre ++ l) !! j = Some x → (x < c)%R).
Proof.
  revert pre best best_i.
  induction l as [|x l IH]; intros pre best best_i Hbest Hle Hlt c k; simpl.
  - intros [= <- <-]. rewrite app_nil_r. done.
  - assert (Hlen : S (length pre) = length (pre ++ [x])).
    { rewrite length_app. simpl. lia. }
    rewrite Hlen, (cons_middle x pre l), app_assoc.
    destruct (decide (best < x)%R) as [Hbx|Hbx]; apply IH.
    + rewrite lookup_app_r by lia. by rewrite Nat.sub_diag.
    + intros y [Hy|Hy%list_elem_of_singleton]%elem_of_app.
      * specialize (Hle y Hy). lra.
      * subst y. lra.
    + intros j y Hj Hy. rewrite lookup_app_l in Hy by lia.
      apply list_elem_of_lookup_2 in Hy. specialize (Hle y Hy). lra.
    + rewrite lookup_app_l; [done | ]. by eapply lookup_lt_Some.
    + intros y [Hy|Hy%list_elem_of_singleton]%elem_of_app.
      * by apply Hle.
      * subst y. lra.
    + intros j y Hj Hy. apply (Hlt j y Hj).
      rewrite lookup_app_l in Hy; [done | ].
      apply lookup_lt_Some in Hbest. lia.
Qed.

(** [torch.max] on a non-empty row returns the largest entry and the first
    position where it occurs. *)
Lemma torch_max_spec (row : list R) :
  row ≠ [] →
  ∃ c k, torch_max Rlt row = Return (c, k)
         ∧ row !! k = Some c
         ∧ (∀ x, x ∈ row → (x <= c)%R)
         ∧ (∀ j x, j < k → row !! j = Some x → (x < c)%R).
Proof.
  destruct row as [|x l]; [done | intros _]. simpl.
  destruct (max_from Rlt x 0 1 l) as [c k] eqn:Hmax.
  exists c, k. split; [done | ].
  apply (max_from_spec l [x] x 0); try done.
  - intros y Hy%list_elem_of_singleton. subst y. lra.
  - intros j y Hj. lia.
Qed.

Lemma exp_sum_nonneg (row : list R) : (0 <= Inference.exp_sum row)%R.
Proof.
  unfold Inference.exp_sum. induction row as [|x row IH]; csimpl; [lra | ].
  pose proof (exp_pos x). lra.
Qed.

Lemma exp_sum_pos (row : list R) : row ≠ [] → (0 < Inference.exp_sum row)%R.
Proof.
  destruct row as [|x row]; [done | intros _].
  pose proof (exp_sum_nonneg row) as H. unfold Inference.exp_sum in *. csimpl.
  pose proof (exp_pos x). lra.
Qed.

Lemma sum_scaled (s : R) (row : list R) :
  foldr Rplus 0%R ((λ x, exp x / s)%R <$> row)
  = (foldr Rplus 0%R (exp <$> row) / s)%R.
Proof.
  induction row as [|x row IH]; csimpl.
  - unfold Rdiv. ring.
  - rewrite IH. unfold Rdiv. ring.
Qed.

(** The softmax probabilities of a non-empty row add up to one. *)
Lemma softmax_sum (row : list R) :
  row ≠ [] → foldr Rplus 0%R (Inference.softmax row) = 1%R.
Proof.
  intros Hne. unfold Inference.softmax. rewrite sum_scaled.
  fold (Inference.exp_sum row).
  pose proof (exp_sum_pos row Hne). field. lra.
Qed.

Lemma sum_le_length_max (c : R) (l : list R) :
  (∀ x, x ∈ l → (x <= c)%R) → (foldr Rplus 0%R l <= INR (length l) * c)%R.
Proof.
  induction l as [|x l IH]; intros Hle.
  - simpl. lra.
  - rewrite length_cons, S_INR. simpl.
    assert (x <= c)%R by (apply Hle; left).
    assert (foldr Rplus 0 l <= INR (length l) * c)%R.
    { apply IH. intros y Hy. apply Hle. by right. }
    lra.
Qed.

(** The largest softmax probability of [n] classes is at least [1/n]. *)
Lemma softmax_max_bound (row : list R) (c : R) :
  row ≠ [] →
  (∀ p, p ∈ Inference.softmax row → (p <= c)%R) →
  (1 <= INR (length row) * c)%R.
Proof.
  intros Hne Hle. rewrite <- (softmax_sum row Hne).
  replace (length row) with (length (Inference.softmax row))
    by (unfold Inference.softmax; apply length_fmap).
  by apply sum_le_length_max.
Qed.

Lemma softmax_nonempty (row : list R) : row ≠ [] → Inference.softmax row ≠ [].
Proof. by destruct row. Qed.

(** C5: on a non-empty output row, with [c] the largest softmax probability
    and [k] the first class that attains it, [get_prediction] returns
    [("Low confidence", 0.0)] when [c] is below the threshold, and
    otherwise the label of class [k] (["Unknown"] for a class without a
    label) together with [c]. *)
Theorem get_prediction_gates_on_confidence
    (self : Inference.InferenceProcessor) (outputs : list R) (threshold : R) :
  outputs ≠ [] →
  ∃ (c : R) (k : nat),
    Inference.softmax outputs !! k = Some c
    ∧ (∀ p, p ∈ Inference.softmax outputs → (p <= c)%R)
    ∧ (∀ j p, j < k → Inference.softmax outputs !! j = Some p → (p < c)%R)
    ∧ ((c < threshold)%R →
       Inference.get_prediction self outputs threshold
       = Return ("Low confidence", 0%R))
    ∧ (¬ (c < threshold)%R →
       Inference.get_prediction self outputs threshold
       = Return (default "Unknown" (Inference.labels self !! k), c)).
Proof.
  intros Hne.
  destruct (torch_max_spec _ (softmax_nonempty _ Hne))
    as (c & k & Hmax & Hk & Hle & Hfirst).
  exists c, k. repeat split; try done.
  - intros Hlow. unfold Inference.get_prediction. rewrite Hmax. simpl.
    by rewrite decide_True.
  - intros Hhigh. unfold Inference.get_prediction. rewrite Hmax. simpl.
    by rewrite decide_False.
Qed.

Lemma get_prediction_gates_on_confidence_witness :
  Inference.get_prediction Inference.InferenceProcessor_init
    [0%R; 0%R; 0%R] (1 / 2)%R
  = Return ("Low confidence", 0%R).
Proof.
  destruct (get_prediction_gates_on_confidence Inference.InferenceProcessor_init
              [0%R; 0%R; 0%R] (1 / 2)%R ltac:(discriminate))
    as (c & k & Hk & _ & _ & Hlow & _).
  apply Hlow. apply list_elem_of_lookup_2 in Hk.
  unfold Inference.softmax, Inference.exp_sum in Hk. csimpl in Hk.
  rewrite exp_0 in Hk.
  repeat (apply elem_of_cons in Hk as [->|Hk]; [lra | ]).
  by apply elem_of_nil in Hk.
Defined.

Lemma label_of_class (k : nat) :
  k < 10 →
  ∃ label, Inference.labels Inference.InferenceProcessor_init !! k = Some label
           ∧ label ≠ "Low confidence" ∧ label ≠ "Unknown".
Proof.
  intros Hk.
  do 10 (destruct k as [|k]; [eexists; split; [reflexivity | by split] | ]).
  lia.
Qed.

(** C10: for a row of ten class scores the largest softmax probability is
    at least [1/10]; so with a threshold of at most [1/10] (the parser's
    default among them) [get_prediction] does not answer "Low confidence":
    it returns the label of the predicted class, one of the ten, with the
    largest probability as confidence. *)
Theorem ten_classes_never_low_confidence
    (self : Inference.InferenceProcessor) (outputs : list R) (threshold : R) :
  Inference.labels self = Inference.labels Inference.InferenceProcessor_init →
  length outputs = 10 →
  (threshold <= Inference.default_confidence_threshold)%R →
  ∃ (c : R) (k : nat) (label : string),
    Inference.softmax outputs !! k = Some c
    ∧ (∀ p, p ∈ Inference.softmax outputs → (p <= c)%R)
    ∧ (1 / 10 <= c)%R
    ∧ Inference.labels self !! k = Some label
    ∧ label ≠ "Low confidence"
    ∧ Inference.get_prediction self outputs threshold = Return (label, c).
Proof.
  intros Hlabels Hlen Hthr. unfold Inference.default_confidence_threshold in Hthr.
  assert (Hne : outputs ≠ []) by (by destruct outputs).
  destruct (torch_max_spec _ (softmax_nonempty _ Hne))
    as (c & k & Hmax & Hk & Hle & _).
  assert (Hc : (1 / 10 <= c)%R).
  { pose proof (softmax_max_bound outputs c Hne Hle) as Hb.
    rewrite Hlen in Hb. simpl in Hb. lra. }
  assert (Hk10 : k < 10).
  { apply lookup_lt_Some in Hk. unfold Inference.softmax in Hk.
    rewrite length_fmap in Hk. lia. }
  destruct (label_of_class k Hk10) as (label & Hlabel & Hnot & _).
  exists c, k, label. rewrite Hlabels. repeat split; try done.
  unfold Inference.get_prediction. rewrite Hmax. simpl.
  rewrite decide_False by lra. by rewrite Hlabels, Hlabel.
Qed.

Lemma ten_classes_never_low_confidence_witness :
  ∃ (c : R) (k : nat) (label : string),
    Inference.softmax (replicate 10 0%R) !! k = Some c
    ∧ (∀ p, p ∈ Inference.softmax (replicate 10 0%R) → (p <= c)%R)
    ∧ (1 / 10 <= c)%R
    ∧ Inference.labels Inference.InferenceProcessor_init !! k = Some label
    ∧ label ≠ "Low confidence"
    ∧ Inference.get_prediction Inference.InferenceProcessor_init
        (replicate 10 0%R) Inference.default_confidence_threshold
      = Return (label, c).
Proof.
  apply ten_classes_never_low_confidence.
  - reflexivity.
  - reflexivity.
  - lra.
Defined.

(** ** Start-up without a checkpoint file *)

Lemma load_model_missing fs self tr :
  fs !! Inference.mm_model_path self = None →
  Inference.load_model fs self tr
  = (Raise (FileNotFoundError
              ("Model file not found: " +:+ Inference.mm_model_path self)),
     tr ++ [PathExists (Inference.mm_model_path self)]).
Proof.
  intros Hf. unfold Inference.load_model, emit, mbind, M_bind. simpl.
  unfold FS.exists_. rewrite bool_decide_eq_false_2; [done | ].
  rewrite Hf. by intros [? ?].
Qed.

(** C6, as the code has it: when the checkpoint file does not exist,
    constructing the [ModelManager] raises Python's [FileNotFoundError]
    after nothing but the existence test, so before the stream is opened or
    a frame is read; the [try] statement of [main] turns the error into a
    printed message and exit code 1, and [main] on these arguments returns
    exit code 1 without a frame having been read. *)
Theorem missing_checkpoint_raises_FileNotFoundError
    (fs : gmap string FS.file) (fresh : Inference.Model)
    (args : Inference.Namespace) (rest : Inference.ModelManager → M unit)
    (tr : list event) :
  fs !! Inference.model_path args = None →
  let msg := "Model file not found: " +:+ Inference.model_path args in
  Inference.ModelManager_init fs fresh (Inference.model_path args) tr
  = (Raise (FileNotFoundError msg),
     tr ++ [PathExists (Inference.model_path args)])
  ∧ Inference.main_try
      (Inference.ModelManager_init fs fresh (Inference.model_path args) ≫= rest) tr
    = (Return 1%Z,
       tr ++ [PathExists (Inference.model_path args);
              Print (Line ("Error: " +:+ msg))])
  ∧ (Inference.main args tr).1 = Return 1%Z
  ∧ CapRead ∉ (Inference.main args []).2.
Proof.
  intros Hf msg.
  assert (Hinit : Inference.ModelManager_init fs fresh (Inference.model_path args) tr
                  = (Raise (FileNotFoundError msg),
                     tr ++ [PathExists (Inference.model_path args)])).
  { unfold Inference.ModelManager_init. by rewrite load_model_missing. }
  split; [exact Hinit | split; [ | split]].
  - unfold Inference.main_try, mbind at 1. unfold M_bind at 1. rewrite Hinit.
    simpl. unfold print, emit, mbind, M_bind. simpl.
    by rewrite <- app_assoc.
  - reflexivity.
  - simpl. intros H. apply list_elem_of_singleton in H. discriminate H.
Qed.

Lemma missing_checkpoint_raises_FileNotFoundError_witness :
  Inference.ModelManager_init ∅ (Inference.mm_model example_manager)
    "model_latest.pt" []
  = (Raise (FileNotFoundError "Model file not found: model_latest.pt"),
     [PathExists "model_latest.pt"]).
Proof.
  exact (proj1 (missing_checkpoint_raises_FileNotFoundError
                  ∅ (Inference.mm_model example_manager)
                  {| Inference.model_path := "model_latest.pt";
                     Inference.rtsp_url := "rtsp://camera";
                     Inference.confidence_threshold :=
                       Inference.default_confidence_threshold |}
                  (λ _, mret ()) [] (lookup_empty _))).
Defined.

(** C6 fails as stated where it names the error: with no checkpoint file
    the error raised is not a [CheckpointNotFoundError]. *)
Lemma missing_checkpoint_not_CheckpointNotFoundError :
  ¬ ∃ e tr,
      Inference.ModelManager_init ∅ (Inference.mm_model example_manager)
        "model_latest.pt" [] = (Raise e, tr)
      ∧ exception_name e = "CheckpointNotFoundError".
Proof.
  intros (e & tr & Hrun & Hname).
  unfold Inference.ModelManager_init in Hrun.
  rewrite load_model_missing in Hrun by apply lookup_empty.
  injection Hrun as <- _. discriminate Hname.
Qed.

(** ** The inference loop *)

Section Loop.
Context {Frame Tensor : Type}.
Variable mnist_pipeline rgb_pipeline : Frame → Tensor.
Variable forward : Inference.Model → Tensor → list R.
Variable rtsp_url : string.
Variable processor : Inference.InferenceProcessor.
Variable confidence_threshold : R.

Local Abbreviation iteration :=
  (Inference.iteration mnist_pipeline rgb_pipeline forward rtsp_url processor
     confidence_threshold).
Local Abbreviation loop :=
  (Inference.loop mnist_pipeline rgb_pipeline forward rtsp_url processor
     confidence_threshold).

Lemma iteration_read_failure (tk : Inference.tick Frame) st tr :
  Inference.interrupt tk = false →
  Inference.read tk = None →
  iteration tk st tr = (Return (Some st), tr ++ reconnect_events rtsp_url).
Proof.
  intros Hint Hread. unfold Inference.iteration, print, emit, mbind, M_bind.
  simpl. rewrite Hint, Hread. simpl.
  unfold reconnect_events. by rewrite <- !app_assoc.
Qed.

Lemma loop_read_failures (ticks more : list (Inference.tick Frame)) st :
  Forall (λ tk, Inference.interrupt tk = false ∧ Inference.read tk = None) ticks →
  ∀ tr, loop (ticks ++ more) st tr
        = loop more st (tr ++ mjoin ((λ _, reconnect_events rtsp_url) <$> ticks)).
Proof.
  induction 1 as [|tk ticks [Hint Hread] _ IH]; intros tr; csimpl.
  - by rewrite app_nil_r.
  - unfold mbind at 1. unfold M_bind at 1.
    rewrite (iteration_read_failure tk st tr Hint Hread).
    rewrite IH. by rewrite <- app_assoc.
Qed.

Lemma loop_frame_raises (tk : Inference.tick Frame) more st tr frame e tr' :
  Inference.interrupt tk = false →
  Inference.read tk = Some frame →
  Inference.get_model (Inference.files tk) (Inference.model_manager st)
    (tr ++ [CapRead]) = (Raise e, tr') →
  loop (tk :: more) st tr = (Raise e, tr').
Proof.
  intros Hint Hread Hget. simpl. unfold mbind at 1. unfold M_bind at 1.
  unfold Inference.iteration, emit. unfold mbind at 1. unfold M_bind at 1.
  rewrite Hint, Hread. unfold mbind at 1. unfold M_bind at 1.
  by rewrite Hget.
Qed.

End Loop.

(** C9, as the code has it: on a failed read (no Ctrl-C arriving) the loop
    prints a message, releases the stream handle, sleeps one second, opens
    the stream again and goes on to the next read with its variables
    unchanged.  A finite run of consecutive failed reads therefore leaves
    the loop running, and the ticks that follow are handled as they would
    have been without the failures; a frame read after them is processed,
    and an exception raised while [get_model] serves that frame ends the
    loop as any exception in the loop body does. *)
Theorem read_failures_reconnect_and_continue {Frame Tensor : Type}
    (mnist_pipeline rgb_pipeline : Frame → Tensor)
    (forward : Inference.Model → Tensor → list R) (rtsp_url : string)
    (processor : Inference.InferenceProcessor) (confidence_threshold : R)
    (ticks more : list (Inference.tick Frame)) (st : Inference.loop_state)
    (start : Qc) (manager : Inference.ModelManager) (tr : list event) :
  Forall (λ tk, Inference.interrupt tk = false ∧ Inference.read tk = None) ticks →
  let loop := Inference.loop mnist_pipeline rgb_pipeline forward rtsp_url
                processor confidence_threshold in
  let events := mjoin ((λ _, reconnect_events rtsp_url) <$> ticks) in
  loop ticks st tr = (Return (Inference.Running st), tr ++ events)
  ∧ loop (ticks ++ more) st tr = loop more st (tr ++ events)
  ∧ Inference.run_inference mnist_pipeline rgb_pipeline forward rtsp_url
      processor confidence_threshold true start manager ticks tr
    = (Return (Inference.Running
                 {| Inference.model_manager := manager;
                    Inference.fps_time := start;
                    Inference.frame_count := 0;
                    Inference.fps := 0%Qc |}),
       (tr ++ [VideoCapture rtsp_url;
               Print (Line ("Starting inference on " +:+ rtsp_url))])
       ++ events)
  ∧ (∀ tk frame e tr',
       Inference.interrupt tk = false →
       Inference.read tk = Some frame →
       Inference.get_model (Inference.files tk) (Inference.model_manager st)
         ((tr ++ events) ++ [CapRead]) = (Raise e, tr') →
       loop (ticks ++ tk :: more) st tr = (Raise e, tr')).
Proof.
  intros Hfail loop events.
  assert (Hloop : ∀ st' tr', loop ticks st' tr'
                             = (Return (Inference.Running st'), tr' ++ events)).
  { intros st' tr'. rewrite <- (app_nil_r ticks) at 1.
    unfold loop. by rewrite loop_read_failures. }
  split; [apply Hloop | split; [ | split]].
  - by apply loop_read_failures.
  - unfold Inference.run_inference, print, emit. unfold mbind at 1. unfold M_bind at 1.
    simpl. unfold mbind at 1. unfold M_bind at 1. simpl.
    unfold Inference.try_loop. fold loop. rewrite Hloop.
    by rewrite <- !app_assoc.
  - intros tk frame e tr' Hint Hread Hget. unfold loop.
    rewrite loop_read_failures by done.
    by eapply loop_frame_raises.
Qed.

Lemma read_failures_reconnect_and_continue_witness :
  Inference.loop example_pipeline example_pipeline example_forward
    "rtsp://camera" Inference.InferenceProcessor_init
    Inference.default_confidence_threshold
    [example_failed_read; example_failed_read; example_failed_read]
    {| Inference.model_manager := example_manager;
       Inference.fps_time := 0%Qc; Inference.frame_count := 0;
       Inference.fps := 0%Qc |} []
  = (Return (Inference.Running
               {| Inference.model_manager := example_manager;
                  Inference.fps_time := 0%Qc; Inference.frame_count := 0;
                  Inference.fps := 0%Qc |}),
     reconnect_events "rtsp://camera" ++ reconnect_events "rtsp://camera"
     ++ reconnect_events "rtsp://camera").
Proof.
  refine (proj1 (read_failures_reconnect_and_continue
                   example_pipeline example_pipeline example_forward
                   "rtsp://camera" Inference.InferenceProcessor_init
                   Inference.default_confidence_threshold
                   [example_failed_read; example_failed_read; example_failed_read]
                   [] _ 0%Qc example_manager [] _)).
  repeat constructor.
Defined.

(** C9 fails as stated where it has a stop signal as the only end of the
    loop: a failed read followed by a frame read while the checkpoint file
    is missing ends the loop with [FileNotFoundError], and no tick carries
    a stop signal. *)
Lemma loop_ends_without_stop_signal :
  let ticks := [example_failed_read; example_frame_without_file] in
  Forall (λ tk, ¬ stop_signal tk) ticks
  ∧ (Inference.run_inference example_pipeline example_pipeline example_forward
       "rtsp://camera" Inference.InferenceProcessor_init
       Inference.default_confidence_threshold true 0%Qc example_manager
       ticks []).1
    = Raise (FileNotFoundError "Model file not found: model_latest.pt").
Proof.
  split.
  - repeat constructor; intros [H|[_ H]]; discriminate H.
  - reflexivity.
Qed.

(** ** Counting in tensors *)

Lemma Qc_of_nat_S (n : nat) : Qc_of_nat (S n) = (Qc_of_nat n + 1)%Qc.
Proof.
  unfold Qc_of_nat. by rewrite Nat2Z.inj_succ, <- Z.add_1_r, Z2Qc_inj_add, Z2Qc_inj_1.
Qed.

Lemma Qc_of_nat_0 : Qc_of_nat 0 = 0%Qc.
Proof. unfold Qc_of_nat. apply Z2Qc_inj_0. Qed.

Lemma sum_insert (t : list Qc) (i : nat) (x y : Qc) :
  t !! i = Some x →
  foldr Qcplus 0%Qc (<[i := y]> t) = (foldr Qcplus 0%Qc t - x + y)%Qc.
Proof.
  revert i. induction t as [|a t IH]; intros [|i] Hi; simplify_eq/=.
  - ring.
  - rewrite (IH i Hi). ring.
Qed.

Lemma incr_spec (t : tensor) (i : nat) :
  i < length t →
  ∃ t', incr t i = Return t'
        ∧ length t' = length t
        ∧ sum_float t' = (sum_float t + 1)%Qc
        ∧ (∀ j, j ≠ i → t' !! j = t !! j).
Proof.
  intros Hi. destruct (lookup_lt_is_Some_2 t i Hi) as [x Hx].
  exists (<[i := (x + 1)%Qc]> t). unfold incr. rewrite Hx. repeat split.
  - apply length_insert.
  - rewrite !sum_float_foldr, (sum_insert t i x) by done. ring.
  - intros j Hj. by rewrite list_lookup_insert_ne.
Qed.

(** ** The evaluation loop of [test] *)

Lemma distribution_loop (preds : list nat) :
  Forall (λ p, p < 10) preds →
  ∀ d : tensor, length d = 10 →
  ∃ d', (∀ tr, for_each (λ d pred, lift (incr d pred)) preds d tr = (Return d', tr))
        ∧ length d' = 10.
Proof.
  induction 1 as [|p preds Hp _ IH]; intros d Hd.
  - by exists d.
  - destruct (incr_spec d p ltac:(lia)) as (d1 & Hincr & Hlen & _).
    destruct (IH d1 ltac:(lia)) as (d' & Hrun & Hlen').
    exists d'. split; [ | done].
    intros tr. simpl. unfold mbind, M_bind, lift. rewrite Hincr. apply Hrun.
Qed.

Lemma count_pairs_loop (pairs : list (nat * nat)) :
  Forall (λ lp, lp.1 < 10) pairs →
  ∀ correct total : tensor, length correct = 10 → length total = 10 →
  ∃ correct' total',
    (∀ tr, for_each Server.count_pair pairs (correct, total) tr
           = (Return (correct', total'), tr))
    ∧ (length correct' = 10 ∧ length total' = 10)
    ∧ sum_float total' = (sum_float total + Qc_of_nat (total_samples pairs))%Qc
    ∧ sum_float correct' = (sum_float correct + Qc_of_nat (total_correct pairs))%Qc
    ∧ (∀ i, Forall (λ lp, lp.1 ≠ i) pairs →
            total' !! i = total !! i ∧ correct' !! i = correct !! i).
Proof.
  unfold total_samples, total_correct.
  induction 1 as [|[l p] pairs Hl _ IH]; intros correct total Hc Ht.
  - exists correct, total. csimpl. rewrite Qc_of_nat_0.
    split; [done | split; [done | split; [ring | split; [ring | done]]]].
  - simpl in Hl.
    destruct (incr_spec total l ltac:(lia)) as (t1 & Ht1 & Hlt1 & Hst1 & Hot1).
    destruct (decide (l = p)) as [Heq|Hne].
    + destruct (incr_spec correct l ltac:(lia)) as (c1 & Hc1 & Hlc1 & Hsc1 & Hoc1).
      destruct (IH c1 t1 ltac:(lia) ltac:(lia))
        as (c' & t' & Hrun & Hlen & Hst' & Hsc' & Hother).
      exists c', t'.
      split; [ | split; [done | split; [ | split]]].
      * intros tr. simpl. unfold mbind, M_bind, lift. rewrite Ht1.
        rewrite decide_True by done. rewrite Hc1. simpl. apply Hrun.
      * rewrite Hst', Hst1. simpl. rewrite Qc_of_nat_S. ring.
      * rewrite Hsc', Hsc1. rewrite filter_cons_True by done.
        simpl. rewrite Qc_of_nat_S. ring.
      * intros i [Hi Hrest]%Forall_cons. simpl in Hi.
        destruct (Hother i Hrest) as [-> ->].
        split; [by apply Hot1 | by apply Hoc1].
    + destruct (IH correct t1 ltac:(lia) ltac:(lia))
        as (c' & t' & Hrun & Hlen & Hst' & Hsc' & Hother).
      exists c', t'.
      split; [ | split; [done | split; [ | split]]].
      * intros tr. simpl. unfold mbind, M_bind, lift. rewrite Ht1.
        rewrite decide_False by done. simpl. apply Hrun.
      * rewrite Hst', Hst1. simpl. rewrite Qc_of_nat_S. ring.
      * rewrite Hsc'. by rewrite filter_cons_False by done.
      * intros i [Hi Hrest]%Forall_cons. simpl in Hi.
        destruct (Hother i Hrest) as [-> ->].
        split; [by apply Hot1 | done].
Qed.

Lemma Qc_of_nat_add (n m : nat) : Qc_of_nat (n + m) = (Qc_of_nat n + Qc_of_nat m)%Qc.
Proof. unfold Qc_of_nat. by rewrite Nat2Z.inj_add, Z2Qc_inj_add. Qed.

Lemma zip_labels_in_range (labels preds : list nat) :
  Forall (λ l, l < 10) labels → Forall (λ lp : nat * nat, lp.1 < 10) (zip labels preds).
Proof.
  rewrite !Forall_forall. intros Hl [l p] Hin. simpl.
  apply Hl. by eapply elem_of_zip_l.
Qed.

Lemma test_batches_loop {Img} model criterion
    (testloader : list (Server.batch Img)) (predss : list (list nat)) :
  evaluated model testloader predss →
  ∀ s : Server.tallies,
  length (Server.class_correct s) = 10 →
  length (Server.class_total s) = 10 →
  length (Server.prediction_distribution s) = 10 →
  ∃ s',
    (∀ tr, for_each (Server.test_batch model criterion) testloader s tr
           = (Return s', tr))
    ∧ (length (Server.class_correct s') = 10
       ∧ length (Server.class_total s') = 10
       ∧ length (Server.prediction_distribution s') = 10)
    ∧ sum_float (Server.class_total s')
      = (sum_float (Server.class_total s)
         + Qc_of_nat (total_samples (sample_pairs testloader predss)))%Qc
    ∧ sum_float (Server.class_correct s')
      = (sum_float (Server.class_correct s)
         + Qc_of_nat (total_correct (sample_pairs testloader predss)))%Qc
    ∧ Server.running_loss s'
      = (Server.running_loss s
         + foldr Qcplus 0 (batch_losses model criterion testloader))%Qc
    ∧ (∀ i, Forall (λ lp, lp.1 ≠ i) (sample_pairs testloader predss) →
            Server.class_total s' !! i = Server.class_total s !! i
            ∧ Server.class_correct s' !! i = Server.class_correct s !! i).
Proof.
  unfold evaluated, sample_pairs, total_samples, total_correct.
  induction 1 as [|b preds testloader predss (Hpred & Hpreds & Hlabels) _ IH];
    intros s Hc Ht Hd.
  - exists s. csimpl. rewrite Qc_of_nat_0.
    split; [done | split; [done | split; [ring | split; [ring | split; [ring | done]]]]].
  - destruct (distribution_loop preds Hpreds _ Hd) as (d1 & Hdist & Hd1).
    destruct (count_pairs_loop _ (zip_labels_in_range _ preds Hlabels) _ _ Hc Ht)
      as (c1 & t1 & Hcount & [Hc1 Ht1] & Hst1 & Hsc1 & Hother1).
    set (s1 := {| Server.class_correct := c1; Server.class_total := t1;
                  Server.prediction_distribution := d1;
                  Server.running_loss :=
                    (Server.running_loss s
                     + criterion (model (Server.img b)) (Server.label b))%Qc |}).
    destruct (IH s1 Hc1 Ht1 Hd1)
      as (s' & Hrun & Hlen & Hst' & Hsc' & Hloss' & Hother').
    exists s'.
    split; [ | split; [done | split; [ | split; [ | split]]]].
    + intros tr. simpl. unfold mbind at 1. unfold M_bind at 1.
      unfold Server.test_batch. unfold mbind at 1. unfold M_bind at 1.
      unfold predictions in Hpred. unfold lift at 1. rewrite Hpred.
      unfold mbind at 1. unfold M_bind at 1. rewrite Hdist.
      unfold mbind at 1. unfold M_bind at 1. rewrite Hcount.
      simpl. apply Hrun.
    + rewrite Hst'. simpl. rewrite Hst1. unfold total_samples.
      rewrite length_app, Qc_of_nat_add. ring.
    + rewrite Hsc'. simpl. rewrite Hsc1. unfold total_correct.
      rewrite filter_app, length_app, Qc_of_nat_add. ring.
    + rewrite Hloss'. csimpl. ring.
    + intros i Hall. csimpl in Hall. apply Forall_app in Hall as [Hhere Hrest].
      destruct (Hother' i Hrest) as [-> ->]. simpl. by apply Hother1.
Qed.

(** ** The report of [test] *)

Lemma label_name_returns (i : nat) :
  i < 10 → ∃ name, Server.label_name i = Return name.
Proof.
  intros Hi. do 10 (destruct i as [|i]; [by eexists | ]). lia.
Qed.

Lemma class_key_inj (i j : nat) :
  i < 10 → j < 10 → class_key i = class_key j → i = j.
Proof.
  intros Hi Hj.
  do 10 (destruct i as [|i]; [
    do 10 (destruct j as [|j];
      [first [reflexivity | intros H; vm_compute in H; discriminate H] | ]); lia | ]).
  lia.
Qed.

Lemma class_key_not_plain (i : nat) (k : string) :
  i < 10 → k ∈ ["accuracy"; "loss"; "prediction_distribution"] → class_key i ≠ k.
Proof.
  intros Hi Hk H. subst k.
  do 10 (destruct i as [|i]; [
    vm_compute in Hk;
    repeat (apply elem_of_cons in Hk as [Hk|Hk]; [discriminate Hk | ]);
    by apply elem_of_nil in Hk | ]).
  lia.
Qed.

Lemma class_accuracy_returns (correct total : tensor) (i : nat) :
  length correct = 10 → length total = 10 → i < 10 →
  ∃ a, Server.class_accuracy correct total i = Return a
       ∧ (total !! i = Some 0%Qc → a = Fin 0%Qc).
Proof.
  intros Hc Ht Hi.
  destruct (lookup_lt_is_Some_2 total i ltac:(lia)) as [t Htot].
  destruct (lookup_lt_is_Some_2 correct i ltac:(lia)) as [c Hcor].
  unfold Server.class_accuracy, tensor_get. rewrite Htot. simpl.
  destruct (decide (0 < t)%Qc) as [Hpos|Hzero].
  - rewrite Hcor. simpl. eexists. split; [done | ].
    intros [= ->]. by apply Qclt_not_le in Hpos.
  - by eexists.
Qed.

Lemma class_rows_loop (s : Server.tallies) (l : list nat) :
  length (Server.class_correct s) = 10 →
  length (Server.class_total s) = 10 →
  Forall (λ i, i < 10) l →
  ∀ tr, ∃ out,
    for_each (Server.print_class_row s) l () tr = (Return (), tr ++ out)
    ∧ (∀ i, i ∈ l →
         Server.class_total s !! i = Some 0%Qc →
         Server.class_correct s !! i = Some 0%Qc →
         Print (ClassRow (class_title i) 0%Qc 0%Qc (Fin 0%Qc)) ∈ out).
Proof.
  intros Hc Ht. induction 1 as [|i l Hi _ IH]; intros tr.
  - exists []. split; [by rewrite app_nil_r | ]. by intros i ?%elem_of_nil.
  - destruct (class_accuracy_returns _ _ i Hc Ht Hi) as (a & Ha & Hzero).
    destruct (label_name_returns i Hi) as [name Hname].
    destruct (lookup_lt_is_Some_2 (Server.class_total s) i ltac:(lia)) as [t Htot].
    destruct (lookup_lt_is_Some_2 (Server.class_correct s) i ltac:(lia)) as [c Hcor].
    set (row := Print (ClassRow ("Class " +:+ pretty i +:+ " (" +:+ name +:+ ")")
                         t c a)).
    destruct (IH (tr ++ [row])) as (out & Hrun & Hrows).
    exists (row :: out). split.
    + simpl. unfold mbind at 1. unfold M_bind at 1.
      unfold Server.print_class_row, lift, emit, mbind, M_bind, tensor_get.
      rewrite Ha, Hname, Htot, Hcor. fold row.
      change (for_each (Server.print_class_row s) l () (tr ++ [row])
              = (Return (), tr ++ row :: out)).
      rewrite Hrun. by rewrite <- app_assoc.
    + intros j [->|Hj]%elem_of_cons Hjt Hjc.
      * apply elem_of_cons. left. unfold row, class_title. rewrite Hname.
        rewrite (Hzero Hjt). congruence.
      * right. by apply Hrows.
Qed.

Lemma distribution_rows_loop (s : Server.tallies) (total : Qc) (l : list nat) :
  length (Server.prediction_distribution s) = 10 →
  Forall (λ i, i < 10) l →
  ∀ tr, ∃ out,
    for_each (Server.print_distribution_row s total) l () tr
    = (Return (), tr ++ out).
Proof.
  intros Hd. induction 1 as [|i l Hi _ IH]; intros tr.
  - exists []. by rewrite app_nil_r.
  - destruct (label_name_returns i Hi) as [name Hname].
    destruct (lookup_lt_is_Some_2 (Server.prediction_distribution s) i ltac:(lia))
      as [p Hp].
    set (row := Print (DistributionRow
                         ("Class " +:+ pretty i +:+ " (" +:+ name +:+ ")") p
                         (times_100 (tensor_div p total)))).
    destruct (IH (tr ++ [row])) as (out & Hrun).
    exists (row :: out).
    simpl. unfold mbind at 1. unfold M_bind at 1.
    unfold Server.print_distribution_row, lift, emit, mbind, M_bind, tensor_get.
    rewrite Hp, Hname. fold row.
    change (for_each (Server.print_distribution_row s total) l () (tr ++ [row])
            = (Return (), tr ++ row :: out)).
    rewrite Hrun. by rewrite <- app_assoc.
Qed.

Lemma class_accuracies_loop (s : Server.tallies) (l : list nat) :
  length (Server.class_correct s) = 10 →
  length (Server.class_total s) = 10 →
  Forall (λ i, i < 10) l →
  ∀ m : gmap string metric_value, ∃ m' : gmap string metric_value,
    (∀ tr, for_each (Server.add_class_accuracy s) l m tr = (Return m', tr))
    ∧ (∀ k, (∀ i, i ∈ l → class_key i ≠ k) → m' !! k = m !! k)
    ∧ (∀ i a, i ∈ l →
         Server.class_accuracy (Server.class_correct s) (Server.class_total s) i
         = Return a →
         m' !! class_key i = Some (MFloat a)).
Proof.
  intros Hc Ht. induction 1 as [|x l Hx Hl IH]; intros m.
  - exists m. split; [done | split; [done | ]]. by intros i a ?%elem_of_nil.
  - destruct (class_accuracy_returns _ _ x Hc Ht Hx) as (ax & Hax & _).
    destruct (label_name_returns x Hx) as [name Hname].
    assert (Hkey : class_key x = "class_" +:+ pretty x +:+ "_" +:+ name +:+ "_acc").
    { unfold class_key. by rewrite Hname. }
    destruct (IH (<[class_key x := MFloat ax]> m)) as (m' & Hrun & Hother & Hmine).
    exists m'. split; [ | split].
    + intros tr. simpl. unfold mbind at 1. unfold M_bind at 1.
      unfold Server.add_class_accuracy, lift, mbind, M_bind.
      rewrite Hax, Hname. unfold mret, M_ret. rewrite <- Hkey. apply Hrun.
    + intros k Hk. rewrite Hother.
      * apply lookup_insert_ne. apply Hk. by left.
      * intros i Hi. apply Hk. by right.
    + intros i a Hi Ha. destruct (decide (i ∈ l)) as [Hin|Hnotin].
      * by apply Hmine.
      * apply elem_of_cons in Hi as [->|Hi]; [ | done].
        rewrite Hother.
        -- rewrite lookup_insert_eq. congruence.
        -- intros j Hj Heq. apply Hnotin.
           rewrite Forall_forall in Hl.
           by rewrite <- (class_key_inj j x (Hl j Hj) Hx Heq).
Qed.

Lemma emit_bind {B} (e : event) (f : () → M B) tr :
  (emit e ≫= f) tr = f () (tr ++ [e]).
Proof. reflexivity. Qed.

Lemma bind_return {A B} (m : M A) (f : A → M B) tr a tr' :
  m tr = (Return a, tr') → (m ≫= f) tr = f a tr'.
Proof. intros H. unfold mbind, M_bind. by rewrite H. Qed.

Lemma sum_zeros10 : sum_float Server.zeros10 = 0%Qc.
Proof. rewrite sum_float_foldr. unfold Server.zeros10. simpl. ring. Qed.

Lemma seq_10_in_range : Forall (λ i, i < 10) (seq 0 10).
Proof. apply Forall_forall. intros i Hi%elem_of_seq. lia. Qed.

Lemma test_report {Img} model criterion
    (testloader : list (Server.batch Img)) (predss : list (list nat)) tr :
  testloader ≠ [] →
  evaluated model testloader predss →
  let pairs := sample_pairs testloader predss in
  let avg_loss :=
    (foldr Qcplus 0 (batch_losses model criterion testloader)
     / Qc_of_nat (length testloader))%Qc in
  let overall :=
    times_100 (tensor_div (Qc_of_nat (total_correct pairs))
                          (Qc_of_nat (total_samples pairs))) in
  ∃ (metrics : gmap string metric_value) (out : list event),
    Server.test model criterion testloader tr
    = (Return (avg_loss, overall, metrics), tr ++ out)
    ∧ metrics !! "accuracy" = Some (MFloat overall)
    ∧ metrics !! "loss" = Some (MFloat (Fin avg_loss))
    ∧ (∀ i, i < 10 → Forall (λ lp, lp.1 ≠ i) pairs →
         metrics !! class_key i = Some (MFloat (Fin 0%Qc))
         ∧ Print (ClassRow (class_title i) 0%Qc 0%Qc (Fin 0%Qc)) ∈ out).
Proof.
  intros Hne Hev pairs avg_loss overall.
  destruct (test_batches_loop model criterion testloader predss Hev
              {| Server.class_correct := Server.zeros10;
                 Server.class_total := Server.zeros10;
                 Server.prediction_distribution := Server.zeros10;
                 Server.running_loss := 0%Qc |} eq_refl eq_refl eq_refl)
    as (s & Hloop & (Hc & Ht & Hd) & Hst & Hsc & Hloss & Hother).
  simpl in Hst, Hsc, Hloss, Hother. fold pairs in Hst, Hsc, Hother.
  rewrite sum_zeros10, Qcplus_0_l in Hst, Hsc. rewrite Qcplus_0_l in Hloss.
  unfold Server.test. unfold mbind at 1. unfold M_bind at 1.
  rewrite Hloop. cbv beta iota.
  rewrite Hst, Hsc, Hloss. fold overall.
  unfold lift at 1, truediv. rewrite decide_False by (destruct testloader; [done | simpl; lia]).
  unfold mbind at 1. unfold M_bind at 1. cbv beta iota.
  change (float_of_int (Z.of_nat (length testloader)))
    with (Qc_of_nat (length testloader)). fold avg_loss.
  unfold print. rewrite !emit_bind.
  match goal with
  | |- context [(for_each (Server.print_class_row s) _ _ ≫= _) ?t] =>
      destruct (class_rows_loop s (seq 0 10) Hc Ht seq_10_in_range t)
        as (rows & Hrows & Hzero_row);
      rewrite (bind_return _ _ _ _ _ Hrows)
  end.
  rewrite !emit_bind.
  match goal with
  | |- context [(for_each (Server.print_distribution_row s ?total) _ _ ≫= _) ?t] =>
      destruct (distribution_rows_loop s total (seq 0 10) Hd seq_10_in_range t)
        as (drows & Hdrows);
      rewrite (bind_return _ _ _ _ _ Hdrows)
  end.
  destruct (class_accuracies_loop s (seq 0 10) Hc Ht seq_10_in_range ∅)
    as (class_accuracies & Hacc & Hnot_class & Hclass).
  rewrite (bind_return _ _ _ _ _ (Hacc _)).
  unfold mret, M_ret.
  eexists. eexists. split; [ | split; [ | split]].
  - rewrite <- !app_assoc. reflexivity.
  - rewrite lookup_union_r.
    + rewrite lookup_insert_ne by done. rewrite lookup_insert_ne by done.
      by rewrite lookup_insert_eq.
    + rewrite Hnot_class; [done | ].
      intros i Hi%elem_of_seq. apply class_key_not_plain; [lia | repeat constructor].
  - rewrite lookup_union_r.
    + rewrite lookup_insert_ne by done. by rewrite lookup_insert_eq.
    + rewrite Hnot_class; [done | ].
      intros i Hi%elem_of_seq. apply class_key_not_plain; [lia | repeat constructor].
  - intros i Hi Hnone. destruct (Hother i Hnone) as [Htot Hcor].
    unfold Server.zeros10 in Htot, Hcor.
    rewrite lookup_replicate_2 in Htot, Hcor by done.
    assert (Hin : i ∈ seq 0 10) by (apply elem_of_seq; lia).
    destruct (class_accuracy_returns _ _ i Hc Ht Hi) as (a & Ha & Hzero).
    split.
    + erewrite lookup_union_Some_l; [done | ].
      rewrite (Hclass i a Hin Ha). by rewrite (Hzero Htot).
    + rewrite !elem_of_app. do 9 right. left. by apply Hzero_row.
Qed.

Lemma example_evaluated : evaluated example_model example_loader [[0; 1; 2]].
Proof.
  repeat constructor; simpl; lia.
Qed.

(** C7, as the code has it: a class without ground-truth samples raises no
    division fault, because the division is guarded by
    [class_total[i] > 0]; its accuracy is then reported as the number 0,
    both in the returned metrics and in its printed row (samples 0,
    correct 0, accuracy 0), which is the accuracy a class with samples and
    none correct gets as well. *)
Theorem zero_sample_class_reports_zero {Img} model criterion
    (testloader : list (Server.batch Img)) (predss : list (list nat))
    (tr : list event) (i : nat) :
  testloader ≠ [] →
  evaluated model testloader predss →
  i < 10 →
  Forall (λ lp, lp.1 ≠ i) (sample_pairs testloader predss) →
  ∃ avg_loss overall_accuracy (metrics : gmap string metric_value) out,
    Server.test model criterion testloader tr
    = (Return (avg_loss, overall_accuracy, metrics), tr ++ out)
    ∧ metrics !! class_key i = Some (MFloat (Fin 0%Qc))
    ∧ Print (ClassRow (class_title i) 0%Qc 0%Qc (Fin 0%Qc)) ∈ out.
Proof.
  intros Hne Hev Hi Hnone.
  destruct (test_report model criterion testloader predss tr Hne Hev)
    as (metrics & out & Hrun & _ & _ & Hclass).
  destruct (Hclass i Hi Hnone) as [Hmetric Hrow].
  by eexists _, _, metrics, out.
Qed.

Lemma zero_sample_class_reports_zero_witness :
  ∃ avg_loss overall_accuracy (metrics : gmap string metric_value) out,
    Server.test example_model example_criterion example_loader []
    = (Return (avg_loss, overall_accuracy, metrics), [] ++ out)
    ∧ metrics !! class_key 4 = Some (MFloat (Fin 0%Qc))
    ∧ Print (ClassRow (class_title 4) 0%Qc 0%Qc (Fin 0%Qc)) ∈ out.
Proof.
  apply (zero_sample_class_reports_zero example_model example_criterion
           example_loader [[0; 1; 2]] [] 4).
  - discriminate.
  - exact example_evaluated.
  - lia.
  - repeat constructor; simpl; lia.
Defined.

(** C7 fails as stated where it has the entry marked "no samples": in the
    example evaluation class 4 has no sample and class 3 has one sample,
    predicted wrongly, and the metrics hold the same entry [0] for both. *)
Lemma zero_sample_class_not_marked :
  Forall (λ lp, lp.1 ≠ 4) (sample_pairs example_loader [[0; 1; 2]])
  ∧ (3, 2) ∈ sample_pairs example_loader [[0; 1; 2]]
  ∧ metric_of example_test.1 (class_key 4) = Some (MFloat (Fin 0%Qc))
  ∧ metric_of example_test.1 (class_key 3) = Some (MFloat (Fin 0%Qc)).
Proof.
  split; [ | split; [ | split]].
  - repeat constructor; simpl; lia.
  - simpl. do 2 right. left.
  - compute_done.
  - compute_done.
Qed.

Lemma sample_pairs_nonempty {Img} (testloader : list (Server.batch Img)) predss :
  sample_pairs testloader predss ≠ [] → testloader ≠ [].
Proof. by destruct testloader. Qed.

(** C8, as the code has it: over a non-empty labelled set the reported
    overall accuracy is the percentage
    [total_correct / total_samples * 100], all classes taken together, and
    the average loss is the mean of the per-batch losses; both are also
    the ["accuracy"] and ["loss"] entries of the returned metrics. *)
Theorem test_reports_percentage_and_mean_loss {Img} model criterion
    (testloader : list (Server.batch Img)) (predss : list (list nat))
    (tr : list event) :
  evaluated model testloader predss →
  sample_pairs testloader predss ≠ [] →
  let pairs := sample_pairs testloader predss in
  let overall_accuracy :=
    Fin (Qc_of_nat (total_correct pairs) / Qc_of_nat (total_samples pairs)
         * Qc_of_Z 100)%Qc in
  let avg_loss := arithmetic_mean (batch_losses model criterion testloader) in
  ∃ (metrics : gmap string metric_value) out,
    Server.test model criterion testloader tr
    = (Return (avg_loss, overall_accuracy, metrics), tr ++ out)
    ∧ metrics !! "accuracy" = Some (MFloat overall_accuracy)
    ∧ metrics !! "loss" = Some (MFloat (Fin avg_loss)).
Proof.
  intros Hev Hpairs pairs overall_accuracy avg_loss.
  destruct (test_report model criterion testloader predss tr
              (sample_pairs_nonempty _ _ Hpairs) Hev)
    as (metrics & out & Hrun & Hacc & Hloss & _).
  assert (Htotal : Qc_of_nat (total_samples pairs) ≠ 0%Qc).
  { unfold Qc_of_nat, total_samples. rewrite <- Z2Qc_inj_0.
    intros H%Z2Qc_inj. fold pairs in Hpairs. destruct pairs; [done | ].
    simpl in H. lia. }
  fold pairs in Hrun, Hacc. unfold tensor_div in Hrun, Hacc.
  rewrite decide_False in Hrun, Hacc by done. simpl in Hrun, Hacc.
  unfold avg_loss, arithmetic_mean, batch_losses. rewrite length_fmap.
  by exists metrics, out.
Qed.

Lemma test_reports_percentage_and_mean_loss_witness :
  ∃ (metrics : gmap string metric_value) out,
    Server.test example_model example_criterion example_loader []
    = (Return (arithmetic_mean
                 (batch_losses example_model example_criterion example_loader),
               Fin (Qc_of_nat 2 / Qc_of_nat 3 * Qc_of_Z 100)%Qc, metrics),
       [] ++ out)
    ∧ metrics !! "accuracy"
      = Some (MFloat (Fin (Qc_of_nat 2 / Qc_of_nat 3 * Qc_of_Z 100)%Qc))
    ∧ metrics !! "loss"
      = Some (MFloat (Fin (arithmetic_mean
                             (batch_losses example_model example_criterion
                                example_loader)))).
Proof.
  apply (test_reports_percentage_and_mean_loss example_model example_criterion
           example_loader [[0; 1; 2]] []).
  - exact example_evaluated.
  - discriminate.
Defined.

(** C8 fails as stated where it has the accuracy equal to
    [total_correct / total_samples]: in the example evaluation two of the
    three samples are predicted correctly and the reported overall accuracy
    is [200/3], a percentage, and not [2/3]. *)
Lemma overall_accuracy_is_a_percentage :
  total_correct (sample_pairs example_loader [[0; 1; 2]]) = 2
  ∧ total_samples (sample_pairs example_loader [[0; 1; 2]]) = 3
  ∧ overall_of example_test.1 = Some (Fin (Q2Qc (200 # 3)))
  ∧ overall_of example_test.1 ≠ Some (Fin (Qc_of_nat 2 / Qc_of_nat 3)%Qc).
Proof.
  split; [ | split; [ | split]].
  - reflexivity.
  - reflexivity.
  - compute_done.
  - compute_done.
Qed.

(** * Further properties *)

(** ** weighted_average: order, scale, errors *)

Lemma reports_of_present (metrics : list (Z * gmap string Qc)) :
  Forall (λ nm, is_Some (nm.2 !! "accuracy")) metrics →
  ∃ updates, Forall2 reports metrics updates.
Proof.
  induction 1 as [|[n m] metrics [a Ha] _ (updates & Hrep)].
  - by exists [].
  - exists ((n, a) :: updates). by constructor.
Qed.

Lemma accuracies_of_missing (metrics : list (Z * gmap string Qc)) :
  Exists (λ nm, nm.2 !! "accuracy" = None) metrics →
  Server.accuracies_of metrics = Raise (KeyError "accuracy").
Proof.
  induction 1 as [[n m] metrics Hnone|[n m] metrics _ IH]; simpl in *.
  - unfold Server.getitem. by rewrite Hnone.
  - unfold Server.getitem. destruct (m !! "accuracy"); simpl; [ | done].
    by rewrite IH.
Qed.

Lemma present_or_missing (metrics : list (Z * gmap string Qc)) :
  Forall (λ nm, is_Some (nm.2 !! "accuracy")) metrics
  ∨ Exists (λ nm, nm.2 !! "accuracy" = None) metrics.
Proof.
  induction metrics as [|[n m] metrics [IH|IH]].
  - left. constructor.
  - destruct (m !! "accuracy") as [a|] eqn:Ha.
    + left. constructor; [by eexists | done].
    + right. by left.
  - right. by right.
Qed.

(** The value or error of [weighted_average] on reports that all carry an
    accuracy. *)
Lemma weighted_average_present metrics updates :
  Forall2 reports metrics updates →
  Server.weighted_average metrics
  = if decide (foldr (λ u acc, u.1 + acc)%Z 0%Z updates = 0%Z)
    then Raise ZeroDivisionError
    else Return {[ "accuracy" := weighted_mean updates ]}.
Proof.
  intros Hrep. case_decide as Htotal.
  - unfold Server.weighted_average.
    rewrite (accuracies_of_reports _ _ Hrep). simpl.
    rewrite (examples_of_reports _ _ Hrep), sum_int_foldr, count_sum_foldr, Htotal.
    done.
  - by apply weighted_average_reports.
Qed.



Lemma weighted_average_missing_accuracy_helper
    (metrics : list (Z * gmap string Qc)) :
  Exists (λ nm, nm.2 !! "accuracy" = None) metrics →
  Server.weighted_average metrics = Raise (KeyError "accuracy").
Proof.
  intros Hmiss. unfold Server.weighted_average.
  by rewrite (accuracies_of_missing _ Hmiss).
Qed.



(** X2: a report without an ["accuracy"] entry makes [weighted_average]
    raise [KeyError('accuracy')], whatever the example counts and the other
    reports are. *)
Theorem weighted_average_missing_accuracy (metrics : list (Z * gmap string Qc)) :
  Exists (λ nm, nm.2 !! "accuracy" = None) metrics →
  Server.weighted_average metrics = Raise (KeyError "accuracy").
Proof.
  intros Hmiss. unfold Server.weighted_average.
  by rewrite (accuracies_of_missing _ Hmiss).
Qed.

Lemma weighted_average_missing_accuracy_witness :
  Server.weighted_average
    [(2%Z, {[ "accuracy" := 1%Qc ]}); (0%Z, {[ "loss" := 1%Qc ]})]
  = Raise (KeyError "accuracy").
Proof.
  apply weighted_average_missing_accuracy. right. left. reflexivity.
Defined.

(** X3: [weighted_average] returns a value exactly when every report
    carries an accuracy and the example counts do not sum to zero; the
    empty list of reports is among the inputs it fails on. *)
Theorem weighted_average_returns_iff (metrics : list (Z * gmap string Qc)) :
  returned (Server.weighted_average metrics) = true
  ↔ Forall (λ nm, is_Some (nm.2 !! "accuracy")) metrics
    ∧ foldr Z.add 0%Z metrics.*1 ≠ 0%Z.
Proof.
  destruct (present_or_missing metrics) as [Hall|Hmiss].
  - destruct (reports_of_present metrics Hall) as (updates & Hrep).
    rewrite (weighted_average_present _ _ Hrep).
    assert (Hcounts : foldr Z.add 0%Z metrics.*1
                      = foldr (λ u acc, u.1 + acc)%Z 0%Z updates).
    { rewrite <- count_sum_foldr. f_equal.
      change (metrics.*1) with (Server.examples_of metrics).
      by apply examples_of_reports. }
    rewrite Hcounts. case_decide; simpl; split; try done.
    + intros [_ ?]. done.
  - unfold Server.weighted_average. rewrite (accuracies_of_missing _ Hmiss).
    simpl. split; [done | ]. intros [Hall _].
    apply Exists_exists in Hmiss as (nm & Hin & Hnone).
    rewrite Forall_forall in Hall. destruct (Hall nm Hin) as [a Ha]. congruence.
Qed.

Lemma scaled_reports (k : Z) metrics updates :
  Forall2 reports metrics updates →
  Forall2 reports (scale_counts k metrics) ((λ u, (k * u.1, u.2)%Z) <$> updates).
Proof.
  unfold scale_counts.
  induction 1 as [|[n m] [c a] metrics updates [Hn Ha] _ IH]; csimpl.
  - constructor.
  - constructor; [ | done]. split; simpl in *; [by subst | done].
Qed.

Lemma scaled_sums (k : Z) (updates : list (Z * Qc)) :
  foldr (λ u acc, Qc_of_Z u.1 * u.2 + acc)%Qc 0%Qc
        ((λ u, (k * u.1, u.2)%Z) <$> updates)
  = (Qc_of_Z k * foldr (λ u acc, Qc_of_Z u.1 * u.2 + acc) 0 updates)%Qc
  ∧ foldr (λ u acc, u.1 + acc)%Z 0%Z ((λ u, (k * u.1, u.2)%Z) <$> updates)
    = (k * foldr (λ u acc, u.1 + acc) 0 updates)%Z.
Proof.
  induction updates as [|[n a] updates [IH1 IH2]]; csimpl.
  - split; [ring | lia].
  - rewrite IH1, IH2, Z2Qc_inj_mul. split; [ring | lia].
Qed.

(** X4: multiplying every example count by the same non-zero integer
    leaves the result of [weighted_average] unchanged, value or error. *)
Theorem weighted_average_scale_counts (k : Z) (metrics : list (Z * gmap string Qc)) :
  k ≠ 0%Z →
  Server.weighted_average (scale_counts k metrics)
  = Server.weighted_average metrics.
Proof.
  intros Hk. destruct (present_or_missing metrics) as [Hall|Hmiss].
  - destruct (reports_of_present metrics Hall) as (updates & Hrep).
    rewrite (weighted_average_present _ _ Hrep),
            (weighted_average_present _ _ (scaled_reports k _ _ Hrep)).
    unfold weighted_mean. destruct (scaled_sums k updates) as [-> ->].
    set (total := foldr (λ u acc, (u.1 + acc)%Z) 0%Z updates).
    destruct (decide (total = 0%Z)) as [->|Htotal].
    + by rewrite Z.mul_0_r.
    + rewrite decide_False by lia. do 2 f_equal.
      rewrite Z2Qc_inj_mul.
      assert (Qc_of_Z k ≠ 0%Qc) by (rewrite <- Z2Qc_inj_0; by intros ?%Z2Qc_inj).
      assert (Qc_of_Z total ≠ 0%Qc) by (rewrite <- Z2Qc_inj_0; by intros ?%Z2Qc_inj).
      field. by split.
  - assert (Hmiss' : Exists (λ nm, nm.2 !! "accuracy" = None) (scale_counts k metrics)).
    { unfold scale_counts. apply Exists_fmap. by simpl. }
    by rewrite (weighted_average_missing_accuracy_helper _ Hmiss),
               (weighted_average_missing_accuracy_helper _ Hmiss').
Qed.

Lemma weighted_average_scale_counts_witness :
  Server.weighted_average
    (scale_counts 3 [(2%Z, {[ "accuracy" := Q2Qc (1 # 2) ]});
                     (6%Z, {[ "accuracy" := 1%Qc ]})])
  = Server.weighted_average
      [(2%Z, {[ "accuracy" := Q2Qc (1 # 2) ]}); (6%Z, {[ "accuracy" := 1%Qc ]})].
Proof. apply weighted_average_scale_counts. discriminate. Defined.




(** ** The parameter dictionary of aggregate_fit *)

Lemma fold_insert_NoDup {V} (l : list (string * V)) :
  NoDup l.*1 →
  ∀ m : gmap string V,
    fold_left (λ d kv, <[kv.1 := kv.2]> d) l m = list_to_map l ∪ m.
Proof.
  induction l as [|[k v] l IH]; intros Hnd m; csimpl.
  - by rewrite (left_id_L ∅ (∪)).
  - apply NoDup_cons in Hnd as [Hk Hnd]. rewrite (IH Hnd).
    rewrite <- insert_union_l. apply symmetry, insert_union_r.
    by apply not_elem_of_list_to_map_1.
Qed.

Lemma zip_keys_NoDup {V} (keys : list string) (values : list V) :
  NoDup keys → NoDup (zip keys values).*1.
Proof.
  intros Hnd. revert values.
  induction Hnd as [|k keys Hk _ IH]; intros [|v values]; csimpl;
    try constructor.
  - intros Hin. apply Hk. apply list_elem_of_fmap in Hin as ([k' v'] & -> & Hin).
    by eapply elem_of_zip_l.
  - apply IH.
Qed.

Lemma dict_of_zip_list_to_map {V} (keys : list string) (values : list V) :
  NoDup keys → Server.dict_of_zip keys values = list_to_map (zip keys values).
Proof.
  intros Hnd. unfold Server.dict_of_zip.
  rewrite fold_insert_NoDup by (by apply zip_keys_NoDup).
  by rewrite (right_id_L ∅ (∪)).
Qed.

(** X6: with distinct layer names, the dictionary that [aggregate_fit]
    builds with [dict(zip(keys, arrays))] maps a name to an array exactly
    when they stand at the same position of the two lists; names beyond
    the shorter list get no entry and arrays beyond it are dropped. *)
Theorem dict_of_zip_lookup (keys : list string) (values : list tensor)
    (k : string) (v : tensor) :
  NoDup keys →
  Server.dict_of_zip keys values !! k = Some v
  ↔ ∃ i, keys !! i = Some k ∧ values !! i = Some v.
Proof.
  intros Hnd. rewrite dict_of_zip_list_to_map by done.
  rewrite <- elem_of_list_to_map by (by apply zip_keys_NoDup).
  rewrite list_elem_of_lookup. split.
  - intros [i Hi]. exists i. by apply lookup_zip_Some in Hi.
  - intros (i & Hk & Hv). exists i. by apply lookup_zip_Some.
Qed.

Lemma dict_of_zip_lookup_witness :
  Server.dict_of_zip ["weight"; "bias"] [[1%Qc]] !! "weight" = Some [1%Qc]
  ↔ ∃ i, ["weight"; "bias"] !! i = Some "weight"
         ∧ ([[1%Qc]] : list tensor) !! i = Some [1%Qc].
Proof.
  apply dict_of_zip_lookup. compute_done.
Defined.

(** X7: for a model whose state dict has distinct names, zipping the names
    with the arrays of [get_parameters] gives the state dict back. *)
Theorem get_parameters_round_trip (items : list (string * tensor)) :
  NoDup items.*1 →
  Server.dict_of_zip items.*1 (Server.get_parameters items) = list_to_map items.
Proof.
  intros Hnd. rewrite dict_of_zip_list_to_map by done.
  unfold Server.get_parameters. by rewrite zip_fst_snd.
Qed.

Lemma get_parameters_round_trip_witness :
  Server.dict_of_zip [("weight", [1%Qc]); ("bias", [0%Qc])].*1
    (Server.get_parameters [("weight", [1%Qc]); ("bias", [0%Qc])])
  = list_to_map [("weight", [1%Qc]); ("bias", [0%Qc])].
Proof.
  apply get_parameters_round_trip. compute_done.
Defined.

(** ** test: exact tallies *)

Lemma count_of_cons (i x : nat) (l : list nat) :
  count_of i (x :: l) = (if decide (x = i) then 1 else 0) + count_of i l.
Proof.
  unfold count_of. destruct (decide (x = i)).
  - by rewrite filter_cons_True.
  - by rewrite filter_cons_False.
Qed.

Lemma incr_at (t t' : tensor) (i j : nat) :
  incr t i = Return t' →
  t' !! j = (λ x, x + Qc_of_nat (if decide (i = j) then 1 else 0))%Qc <$> t !! j.
Proof.
  unfold incr. destruct (t !! i) as [x|] eqn:Hx; [ | done]. intros [= <-].
  destruct (decide (i = j)) as [<-|Hne].
  - rewrite list_lookup_insert_eq by (by eapply lookup_lt_Some).
    rewrite Hx. simpl. by rewrite Qc_of_nat_S, Qc_of_nat_0, Qcplus_0_l.
  - rewrite list_lookup_insert_ne by done. rewrite Qc_of_nat_0.
    destruct (t !! j); simpl; [ | done]. by rewrite Qcplus_0_r.
Qed.

Lemma bump_compose (o : option Qc) (n m : nat) :
  (λ x, x + Qc_of_nat m)%Qc <$> ((λ x, x + Qc_of_nat n)%Qc <$> o)
  = (λ x, x + Qc_of_nat (n + m))%Qc <$> o.
Proof.
  destruct o; simpl; [ | done]. rewrite Qc_of_nat_add. f_equal. ring.
Qed.

Lemma distribution_loop_exact (preds : list nat) :
  Forall (λ p, p < 10) preds →
  ∀ d : tensor, length d = 10 →
  ∃ d', (∀ tr, for_each (λ d pred, lift (incr d pred)) preds d tr = (Return d', tr))
        ∧ length d' = 10
        ∧ (∀ j, d' !! j = (λ x, x + Qc_of_nat (count_of j preds))%Qc <$> d !! j).
Proof.
  induction 1 as [|p preds Hp _ IH]; intros d Hd.
  - exists d. split; [done | split; [done | ]]. intros j.
    unfold count_of. simpl. rewrite Qc_of_nat_0.
    destruct (d !! j); simpl; [ | done]. by rewrite Qcplus_0_r.
  - destruct (incr_spec d p ltac:(lia)) as (d1 & Hincr & Hlen & _).
    destruct (IH d1 ltac:(lia)) as (d' & Hrun & Hlen' & Hat).
    exists d'. split; [ | split; [done | ]].
    + intros tr. simpl. unfold mbind, M_bind, lift. rewrite Hincr. apply Hrun.
    + intros j. rewrite Hat, (incr_at d d1 p j Hincr), bump_compose.
      by rewrite count_of_cons.
Qed.

Lemma count_pairs_exact (pairs : list (nat * nat)) :
  Forall (λ lp, lp.1 < 10) pairs →
  ∀ correct total : tensor, length correct = 10 → length total = 10 →
  ∃ correct' total',
    (∀ tr, for_each Server.count_pair pairs (correct, total) tr
           = (Return (correct', total'), tr))
    ∧ (length correct' = 10 ∧ length total' = 10)
    ∧ (∀ j, total' !! j
            = (λ x, x + Qc_of_nat (count_of j pairs.*1))%Qc <$> total !! j)
    ∧ (∀ j, correct' !! j
            = (λ x, x + Qc_of_nat (count_of j (correct_labels pairs)))%Qc
              <$> correct !! j).
Proof.
  unfold correct_labels.
  induction 1 as [|[l p] pairs Hl _ IH]; intros correct total Hc Ht.
  - exists correct, total. split; [done | split; [done | ]].
    unfold count_of. csimpl. rewrite Qc_of_nat_0.
    split; intros j; [destruct (total !! j) | destruct (correct !! j)]; simpl;
      try done; by rewrite Qcplus_0_r.
  - simpl in Hl.
    destruct (incr_spec total l ltac:(lia)) as (t1 & Ht1 & Hlt1 & _).
    destruct (decide (l = p)) as [Heq|Hne].
    + destruct (incr_spec correct l ltac:(lia)) as (c1 & Hc1 & Hlc1 & _).
      destruct (IH c1 t1 ltac:(lia) ltac:(lia)) as (c' & t' & Hrun & Hlen & Htot & Hcor).
      exists c', t'. split; [ | split; [done | split]].
      * intros tr. simpl. unfold mbind, M_bind, lift. rewrite Ht1.
        rewrite decide_True by done. rewrite Hc1. simpl. apply Hrun.
      * intros j. rewrite Htot, (incr_at total t1 l j Ht1), bump_compose.
        csimpl. by rewrite count_of_cons.
      * intros j. rewrite Hcor, (incr_at correct c1 l j Hc1), bump_compose.
        rewrite filter_cons_True by done. csimpl. by rewrite count_of_cons.
    + destruct (IH correct t1 ltac:(lia) ltac:(lia)) as (c' & t' & Hrun & Hlen & Htot & Hcor).
      exists c', t'. split; [ | split; [done | split]].
      * intros tr. simpl. unfold mbind, M_bind, lift. rewrite Ht1.
        rewrite decide_False by done. simpl. apply Hrun.
      * intros j. rewrite Htot, (incr_at total t1 l j Ht1), bump_compose.
        csimpl. by rewrite count_of_cons.
      * intros j. rewrite Hcor. by rewrite filter_cons_False by done.
Qed.

Lemma count_of_app (i : nat) (l1 l2 : list nat) :
  count_of i (l1 ++ l2) = count_of i l1 + count_of i l2.
Proof. unfold count_of. by rewrite filter_app, length_app. Qed.

Lemma correct_labels_app (l1 l2 : list (nat * nat)) :
  correct_labels (l1 ++ l2) = correct_labels l1 ++ correct_labels l2.
Proof. unfold correct_labels. by rewrite filter_app, fmap_app. Qed.

Lemma test_batches_exact {Img} model criterion
    (testloader : list (Server.batch Img)) (predss : list (list nat)) :
  evaluated model testloader predss →
  ∀ s : Server.tallies,
  length (Server.class_correct s) = 10 →
  length (Server.class_total s) = 10 →
  length (Server.prediction_distribution s) = 10 →
  ∃ s',
    (∀ tr, for_each (Server.test_batch model criterion) testloader s tr
           = (Return s', tr))
    ∧ (length (Server.class_correct s') = 10
       ∧ length (Server.class_total s') = 10
       ∧ length (Server.prediction_distribution s') = 10)
    ∧ (∀ j, Server.class_total s' !! j
            = (λ x, x + Qc_of_nat (count_of j (sample_pairs testloader predss).*1))%Qc
              <$> Server.class_total s !! j)
    ∧ (∀ j, Server.class_correct s' !! j
            = (λ x, x + Qc_of_nat
                          (count_of j (correct_labels
                                         (sample_pairs testloader predss))))%Qc
              <$> Server.class_correct s !! j)
    ∧ (∀ j, Server.prediction_distribution s' !! j
            = (λ x, x + Qc_of_nat (count_of j (mjoin predss)))%Qc
              <$> Server.prediction_distribution s !! j).
Proof.
  unfold evaluated, sample_pairs.
  induction 1 as [|b preds testloader predss (Hpred & Hpreds & Hlabels) _ IH];
    intros s Hc Ht Hd.
  - exists s. split; [done | split; [done | ]].
    unfold count_of. csimpl. rewrite Qc_of_nat_0.
    split; [ | split]; intros j;
      match goal with |- ?o = _ => destruct o end; simpl; try done;
      by rewrite Qcplus_0_r.
  - destruct (distribution_loop_exact preds Hpreds _ Hd) as (d1 & Hdist & Hd1 & Hdat).
    destruct (count_pairs_exact _ (zip_labels_in_range _ preds Hlabels) _ _ Hc Ht)
      as (c1 & t1 & Hcount & [Hc1 Ht1] & Htat & Hcat).
    set (s1 := {| Server.class_correct := c1; Server.class_total := t1;
                  Server.prediction_distribution := d1;
                  Server.running_loss :=
                    (Server.running_loss s
                     + criterion (model (Server.img b)) (Server.label b))%Qc |}).
    destruct (IH s1 Hc1 Ht1 Hd1) as (s' & Hrun & Hlen & Htot & Hcor & Hdis).
    exists s'. split; [ | split; [done | split; [ | split]]].
    + intros tr. simpl. unfold mbind at 1. unfold M_bind at 1.
      unfold Server.test_batch. unfold mbind at 1. unfold M_bind at 1.
      unfold predictions in Hpred. unfold lift at 1. rewrite Hpred.
      unfold mbind at 1. unfold M_bind at 1. rewrite Hdist.
      unfold mbind at 1. unfold M_bind at 1. rewrite Hcount.
      simpl. apply Hrun.
    + intros j. rewrite Htot. simpl. rewrite Htat, bump_compose.
      csimpl. by rewrite fmap_app, count_of_app.
    + intros j. rewrite Hcor. simpl. rewrite Hcat, bump_compose.
      csimpl. by rewrite correct_labels_app, count_of_app.
    + intros j. rewrite Hdis. simpl. rewrite Hdat, bump_compose.
      csimpl. by rewrite count_of_app.
Qed.

(** ** test: the whole report *)

Lemma class_rows_loop_exact (s : Server.tallies) (l : list nat) :
  length (Server.class_correct s) = 10 →
  length (Server.class_total s) = 10 →
  Forall (λ i, i < 10) l →
  ∀ tr, ∃ out,
    for_each (Server.print_class_row s) l () tr = (Return (), tr ++ out)
    ∧ (∀ i t c a, i ∈ l →
         Server.class_total s !! i = Some t →
         Server.class_correct s !! i = Some c →
         Server.class_accuracy (Server.class_correct s) (Server.class_total s) i
         = Return a →
         Print (ClassRow (class_title i) t c a) ∈ out).
Proof.
  intros Hc Ht. induction 1 as [|i l Hi _ IH]; intros tr.
  - exists []. split; [by rewrite app_nil_r | ]. by intros i t c a ?%elem_of_nil.
  - destruct (class_accuracy_returns _ _ i Hc Ht Hi) as (a & Ha & _).
    destruct (label_name_returns i Hi) as [name Hname].
    destruct (lookup_lt_is_Some_2 (Server.class_total s) i ltac:(lia)) as [t Htot].
    destruct (lookup_lt_is_Some_2 (Server.class_correct s) i ltac:(lia)) as [c Hcor].
    set (row := Print (ClassRow ("Class " +:+ pretty i +:+ " (" +:+ name +:+ ")")
                         t c a)).
    destruct (IH (tr ++ [row])) as (out & Hrun & Hrows).
    exists (row :: out). split.
    + simpl. unfold mbind at 1. unfold M_bind at 1.
      unfold Server.print_class_row, lift, emit, mbind, M_bind, tensor_get.
      rewrite Ha, Hname, Htot, Hcor. fold row.
      change (for_each (Server.print_class_row s) l () (tr ++ [row])
              = (Return (), tr ++ row :: out)).
      rewrite Hrun. by rewrite <- app_assoc.
    + intros j t' c' a' [->|Hj]%elem_of_cons Hjt Hjc Hja.
      * apply elem_of_cons. left. unfold row, class_title. rewrite Hname.
        congruence.
      * apply elem_of_cons. right. by eapply Hrows.
Qed.

Lemma distribution_rows_loop_exact (s : Server.tallies) (total : Qc) (l : list nat) :
  length (Server.prediction_distribution s) = 10 →
  Forall (λ i, i < 10) l →
  ∀ tr, ∃ out,
    for_each (Server.print_distribution_row s total) l () tr
    = (Return (), tr ++ out)
    ∧ (∀ i p, i ∈ l →
         Server.prediction_distribution s !! i = Some p →
         Print (DistributionRow (class_title i) p
                  (times_100 (tensor_div p total))) ∈ out).
Proof.
  intros Hd. induction 1 as [|i l Hi _ IH]; intros tr.
  - exists []. split; [by rewrite app_nil_r | ]. by intros i p ?%elem_of_nil.
  - destruct (label_name_returns i Hi) as [name Hname].
    destruct (lookup_lt_is_Some_2 (Server.prediction_distribution s) i ltac:(lia))
      as [p Hp].
    set (row := Print (DistributionRow
                         ("Class " +:+ pretty i +:+ " (" +:+ name +:+ ")") p
                         (times_100 (tensor_div p total)))).
    destruct (IH (tr ++ [row])) as (out & Hrun & Hrows).
    exists (row :: out). split.
    + simpl. unfold mbind at 1. unfold M_bind at 1.
      unfold Server.print_distribution_row, lift, emit, mbind, M_bind, tensor_get.
      rewrite Hp, Hname. fold row.
      change (for_each (Server.print_distribution_row s total) l () (tr ++ [row])
              = (Return (), tr ++ row :: out)).
      rewrite Hrun. by rewrite <- app_assoc.
    + intros j p' [->|Hj]%elem_of_cons Hjp.
      * apply elem_of_cons. left. unfold row, class_title. rewrite Hname.
        congruence.
      * apply elem_of_cons. right. by eapply Hrows.
Qed.

Lemma test_tail {Img} model criterion (testloader : list (Server.batch Img))
    (s : Server.tallies) tr :
  testloader ≠ [] →
  (∀ tr, for_each (Server.test_batch model criterion) testloader
           {| Server.class_correct := Server.zeros10;
              Server.class_total := Server.zeros10;
              Server.prediction_distribution := Server.zeros10;
              Server.running_loss := 0%Qc |} tr = (Return s, tr)) →
  length (Server.class_correct s) = 10 →
  length (Server.class_total s) = 10 →
  length (Server.prediction_distribution s) = 10 →
  ∃ (metrics : gmap string metric_value) (out : list event),
    Server.test model criterion testloader tr
    = (Return ((Server.running_loss s / Qc_of_nat (length testloader))%Qc,
               times_100 (tensor_div (sum_float (Server.class_correct s))
                                     (sum_float (Server.class_total s))),
               metrics), tr ++ out)
    ∧ (∀ i t c a, i < 10 →
         Server.class_total s !! i = Some t →
         Server.class_correct s !! i = Some c →
         Server.class_accuracy (Server.class_correct s) (Server.class_total s) i
         = Return a →
         metrics !! class_key i = Some (MFloat a)
         ∧ Print (ClassRow (class_title i) t c a) ∈ out)
    ∧ metrics !! "prediction_distribution"
      = Some (MList (Server.prediction_distribution s))
    ∧ (∀ i p, i < 10 →
         Server.prediction_distribution s !! i = Some p →
         Print (DistributionRow (class_title i) p
                  (times_100 (tensor_div p
                     (sum_float (Server.prediction_distribution s))))) ∈ out)
    ∧ (∀ k, is_Some (metrics !! k)
            ↔ k ∈ plain_keys ∨ ∃ i, i < 10 ∧ k = class_key i).
Proof.
  intros Hne Hloop Hc Ht Hd.
  unfold Server.test. unfold mbind at 1. unfold M_bind at 1.
  rewrite Hloop. cbv beta iota.
  unfold lift at 1, truediv.
  rewrite decide_False by (destruct testloader; [done | simpl; lia]).
  unfold mbind at 1. unfold M_bind at 1. cbv beta iota.
  change (float_of_int (Z.of_nat (length testloader)))
    with (Qc_of_nat (length testloader)).
  unfold print. rewrite !emit_bind.
  match goal with
  | |- context [(for_each (Server.print_class_row s) _ _ ≫= _) ?t] =>
      destruct (class_rows_loop_exact s (seq 0 10) Hc Ht seq_10_in_range t)
        as (rows & Hrows & Hrow);
      rewrite (bind_return _ _ _ _ _ Hrows)
  end.
  rewrite !emit_bind.
  match goal with
  | |- context [(for_each (Server.print_distribution_row s ?total) _ _ ≫= _) ?t] =>
      destruct (distribution_rows_loop_exact s total (seq 0 10) Hd
                  seq_10_in_range t) as (drows & Hdrows & Hdrow);
      rewrite (bind_return _ _ _ _ _ Hdrows)
  end.
  destruct (class_accuracies_loop s (seq 0 10) Hc Ht seq_10_in_range ∅)
    as (class_accuracies & Hacc & Hnot_class & Hclass).
  rewrite (bind_return _ _ _ _ _ (Hacc _)).
  unfold mret, M_ret.
  assert (Hplain : ∀ k, k ∈ plain_keys → class_accuracies !! k = None).
  { intros k Hk. rewrite Hnot_class; [done | ].
    intros i Hi%elem_of_seq. apply class_key_not_plain; [lia | done]. }
  eexists. eexists. split; [ | split; [ | split; [ | split]]].
  - rewrite <- !app_assoc. reflexivity.
  - intros i t c a Hi Hit Hic Hia.
    assert (Hin : i ∈ seq 0 10) by (apply elem_of_seq; lia).
    split.
    + erewrite lookup_union_Some_l; [done | ]. by apply Hclass.
    + rewrite !elem_of_app. do 9 right. left. by eapply Hrow.
  - rewrite lookup_union_r by (apply Hplain; unfold plain_keys; repeat constructor).
    by rewrite lookup_insert_eq.
  - intros i p Hi Hip.
    assert (Hin : i ∈ seq 0 10) by (apply elem_of_seq; lia).
    rewrite !elem_of_app. do 14 right. by eapply Hdrow.
  - intros k. rewrite lookup_union_is_Some. split.
    + intros [Hk|Hk].
      * right. destruct (decide (Exists (λ i, class_key i = k) (seq 0 10)))
          as [Hex|Hnex].
        -- apply Exists_exists in Hex as (i & Hi%elem_of_seq & Hik).
           exists i. split; [lia | done].
        -- rewrite Hnot_class in Hk.
           ++ rewrite lookup_empty in Hk. by destruct Hk.
           ++ intros i Hi Hik. apply Hnex. apply Exists_exists. by exists i.
      * left. unfold plain_keys.
        destruct (decide (k = "prediction_distribution")) as [->|H1];
          [repeat constructor | ].
        rewrite lookup_insert_ne in Hk by done.
        destruct (decide (k = "loss")) as [->|H2]; [repeat constructor | ].
        rewrite lookup_insert_ne in Hk by done.
        destruct (decide (k = "accuracy")) as [->|H3]; [repeat constructor | ].
        rewrite lookup_insert_ne in Hk by done.
        rewrite lookup_empty in Hk. by destruct Hk.
    + intros [Hk|(i & Hi & ->)].
      * right. unfold plain_keys in Hk.
        repeat (apply elem_of_cons in Hk as [->|Hk];
                [rewrite ?lookup_insert_eq, ?lookup_insert_ne by done;
                 rewrite ?lookup_insert_eq, ?lookup_insert_ne by done;
                 rewrite ?lookup_insert_eq; by eexists | ]).
        by apply elem_of_nil in Hk.
      * left.
        destruct (class_accuracy_returns _ _ i Hc Ht Hi) as (a & Ha & _).
        assert (Hin : i ∈ seq 0 10) by (apply elem_of_seq; lia).
        rewrite (Hclass i a Hin Ha). by eexists.
Qed.

Lemma zeros10_bump (j n : nat) :
  j < 10 →
  (λ x, x + Qc_of_nat n)%Qc <$> Server.zeros10 !! j = Some (Qc_of_nat n).
Proof.
  intros Hj. unfold Server.zeros10. rewrite lookup_replicate_2 by done.
  simpl. by rewrite Qcplus_0_l.
Qed.

Lemma Qc_of_nat_pos (n : nat) : n ≠ 0 → (0 < Qc_of_nat n)%Qc.
Proof.
  intros Hn. unfold Qc_of_nat.
  pose proof (proj1 (Z2Qc_inj_lt 0 (Z.of_nat n)) ltac:(lia)) as H.
  by rewrite Z2Qc_inj_0 in H.
Qed.

Lemma class_accuracy_percentage (correct total : tensor) (i c n : nat) :
  total !! i = Some (Qc_of_nat n) →
  correct !! i = Some (Qc_of_nat c) →
  Server.class_accuracy correct total i = Return (class_percentage c n).
Proof.
  intros Ht Hc. unfold Server.class_accuracy, tensor_get, class_percentage.
  rewrite Ht. simpl. destruct (decide (n = 0)) as [->|Hn].
  - rewrite Qc_of_nat_0.
    rewrite decide_False; [done | intros H; by apply Qclt_not_le in H].
  - pose proof (Qc_of_nat_pos n Hn) as Hpos.
    rewrite decide_True by done. rewrite Hc. simpl.
    unfold tensor_div. rewrite decide_False; [done | ].
    intros H0. rewrite H0 in Hpos. by apply Qclt_not_le in Hpos.
Qed.

(** What [test] returns and prints on a non-empty loader whose labels and
    predictions are among the ten classes, in terms of the samples. *)
Lemma test_exact {Img} model criterion (testloader : list (Server.batch Img))
    (predss : list (list nat)) tr :
  testloader ≠ [] →
  evaluated model testloader predss →
  let pairs := sample_pairs testloader predss in
  ∃ avg_loss overall (metrics : gmap string metric_value) (out : list event)
    (distribution : tensor),
    Server.test model criterion testloader tr
    = (Return (avg_loss, overall, metrics), tr ++ out)
    ∧ (∀ i, i < 10 →
         let samples := count_of i pairs.*1 in
         let correct := count_of i (correct_labels pairs) in
         metrics !! class_key i = Some (MFloat (class_percentage correct samples))
         ∧ Print (ClassRow (class_title i) (Qc_of_nat samples) (Qc_of_nat correct)
                    (class_percentage correct samples)) ∈ out)
    ∧ metrics !! "prediction_distribution" = Some (MList distribution)
    ∧ length distribution = 10
    ∧ (∀ i, i < 10 →
         distribution !! i = Some (Qc_of_nat (count_of i (mjoin predss)))
         ∧ ∃ percentage,
             Print (DistributionRow (class_title i)
                      (Qc_of_nat (count_of i (mjoin predss))) percentage) ∈ out)
    ∧ (∀ k, is_Some (metrics !! k)
            ↔ k ∈ plain_keys ∨ ∃ i, i < 10 ∧ k = class_key i).
Proof.
  intros Hne Hev pairs.
  destruct (test_batches_exact model criterion testloader predss Hev
              {| Server.class_correct := Server.zeros10;
                 Server.class_total := Server.zeros10;
                 Server.prediction_distribution := Server.zeros10;
                 Server.running_loss := 0%Qc |} eq_refl eq_refl eq_refl)
    as (s & Hloop & (Hc & Ht & Hd) & Htot & Hcor & Hdis).
  simpl in Htot, Hcor, Hdis. fold pairs in Htot, Hcor.
  destruct (test_tail model criterion testloader s tr Hne Hloop Hc Ht Hd)
    as (metrics & out & Hrun & Hclass & Hpd & Hdrow & Hkeys).
  eexists _, _, metrics, out, (Server.prediction_distribution s).
  split; [exact Hrun | split; [ | split; [done | split; [done | split; [ | done]]]]].
  - intros i Hi samples correct.
    assert (Hit := Htot i). rewrite zeros10_bump in Hit by done.
    assert (Hic := Hcor i). rewrite zeros10_bump in Hic by done.
    apply Hclass; try done. by apply class_accuracy_percentage.
  - intros i Hi.
    assert (Hip := Hdis i). rewrite zeros10_bump in Hip by done.
    split; [done | ]. eexists. by apply Hdrow.
Qed.

(** X8: on a non-empty loader with labels and predictions among the ten
    classes, the report of [test] for class [i] shows the number of samples
    labelled [i], the number of those predicted as [i], and as accuracy
    their ratio times 100 (0 when the class has no sample); the same
    accuracy is the class's entry in the returned metrics. *)
Theorem test_class_rows_count_samples {Img} model criterion
    (testloader : list (Server.batch Img)) (predss : list (list nat))
    (tr : list event) (i : nat) :
  testloader ≠ [] →
  evaluated model testloader predss →
  i < 10 →
  let pairs := sample_pairs testloader predss in
  let samples := count_of i pairs.*1 in
  let correct := count_of i (correct_labels pairs) in
  ∃ avg_loss overall (metrics : gmap string metric_value) out,
    Server.test model criterion testloader tr
    = (Return (avg_loss, overall, metrics), tr ++ out)
    ∧ metrics !! class_key i = Some (MFloat (class_percentage correct samples))
    ∧ Print (ClassRow (class_title i) (Qc_of_nat samples) (Qc_of_nat correct)
               (class_percentage correct samples)) ∈ out.
Proof.
  intros Hne Hev Hi pairs samples correct.
  destruct (test_exact model criterion testloader predss tr Hne Hev)
    as (avg_loss & overall & metrics & out & d & Hrun & Hclass & _).
  destruct (Hclass i Hi) as [Hmetric Hrow].
  by exists avg_loss, overall, metrics, out.
Qed.

Lemma test_class_rows_count_samples_witness :
  ∃ avg_loss overall (metrics : gmap string metric_value) out,
    Server.test example_model example_criterion example_loader []
    = (Return (avg_loss, overall, metrics), [] ++ out)
    ∧ metrics !! class_key 1 = Some (MFloat (class_percentage 1 1))
    ∧ Print (ClassRow (class_title 1) (Qc_of_nat 1) (Qc_of_nat 1)
               (class_percentage 1 1)) ∈ out.
Proof.
  apply (test_class_rows_count_samples example_model example_criterion
           example_loader [[0; 1; 2]] [] 1).
  - discriminate.
  - exact example_evaluated.
  - lia.
Defined.

(** X9: under the same conditions the ["prediction_distribution"] entry of
    the metrics is a list of ten numbers, the [i]-th being the number of
    samples the network assigned to class [i], whatever their labels; the
    printed distribution row of class [i] shows that number. *)
Theorem test_prediction_distribution_counts {Img} model criterion
    (testloader : list (Server.batch Img)) (predss : list (list nat))
    (tr : list event) :
  testloader ≠ [] →
  evaluated model testloader predss →
  ∃ avg_loss overall (metrics : gmap string metric_value) out
    (distribution : tensor),
    Server.test model criterion testloader tr
    = (Return (avg_loss, overall, metrics), tr ++ out)
    ∧ metrics !! "prediction_distribution" = Some (MList distribution)
    ∧ length distribution = 10
    ∧ (∀ i, i < 10 →
         distribution !! i = Some (Qc_of_nat (count_of i (mjoin predss)))
         ∧ ∃ percentage,
             Print (DistributionRow (class_title i)
                      (Qc_of_nat (count_of i (mjoin predss))) percentage) ∈ out).
Proof.
  intros Hne Hev.
  destruct (test_exact model criterion testloader predss tr Hne Hev)
    as (avg_loss & overall & metrics & out & d & Hrun & _ & Hpd & Hlen & Hd & _).
  by exists avg_loss, overall, metrics, out, d.
Qed.

Lemma test_prediction_distribution_counts_witness :
  ∃ avg_loss overall (metrics : gmap string metric_value) out
    (distribution : tensor),
    Server.test example_model example_criterion example_loader []
    = (Return (avg_loss, overall, metrics), [] ++ out)
    ∧ metrics !! "prediction_distribution" = Some (MList distribution)
    ∧ length distribution = 10
    ∧ (∀ i, i < 10 →
         distribution !! i = Some (Qc_of_nat (count_of i (mjoin [[0; 1; 2]])))
         ∧ ∃ percentage,
             Print (DistributionRow (class_title i)
                      (Qc_of_nat (count_of i (mjoin [[0; 1; 2]]))) percentage)
             ∈ out).
Proof.
  apply (test_prediction_distribution_counts example_model example_criterion
           example_loader [[0; 1; 2]] []).
  - discriminate.
  - exact example_evaluated.
Defined.

(** X10: under the same conditions the returned metrics have exactly
    thirteen entries: ["accuracy"], ["loss"], ["prediction_distribution"]
    and one [class_<i>_<name>_acc] per class. *)
Theorem test_metrics_keys {Img} model criterion
    (testloader : list (Server.batch Img)) (predss : list (list nat))
    (tr : list event) :
  testloader ≠ [] →
  evaluated model testloader predss →
  ∃ avg_loss overall (metrics : gmap string metric_value) out,
    Server.test model criterion testloader tr
    = (Return (avg_loss, overall, metrics), tr ++ out)
    ∧ (∀ k, is_Some (metrics !! k)
            ↔ k ∈ plain_keys ∨ ∃ i, i < 10 ∧ k = class_key i).
Proof.
  intros Hne Hev.
  destruct (test_exact model criterion testloader predss tr Hne Hev)
    as (avg_loss & overall & metrics & out & d & Hrun & _ & _ & _ & _ & Hkeys).
  by exists avg_loss, overall, metrics, out.
Qed.

Lemma test_metrics_keys_witness :
  ∃ avg_loss overall (metrics : gmap string metric_value) out,
    Server.test example_model example_criterion example_loader []
    = (Return (avg_loss, overall, metrics), [] ++ out)
    ∧ (∀ k, is_Some (metrics !! k)
            ↔ k ∈ plain_keys ∨ ∃ i, i < 10 ∧ k = class_key i).
Proof.
  apply (test_metrics_keys example_model example_criterion
           example_loader [[0; 1; 2]] []).
  - discriminate.
  - exact example_evaluated.
Defined.

Lemma Qc_of_nat_le (n m : nat) : n ≤ m → (Qc_of_nat n ≤ Qc_of_nat m)%Qc.
Proof.
  intros H. unfold Qc_of_nat. apply (proj1 (Z2Qc_inj_le _ _)). lia.
Qed.

Lemma percentage_range (c t : nat) :
  c ≤ t → t ≠ 0 →
  (0 ≤ Qc_of_nat c / Qc_of_nat t * Qc_of_Z 100)%Qc
  ∧ (Qc_of_nat c / Qc_of_nat t * Qc_of_Z 100 ≤ Qc_of_Z 100)%Qc.
Proof.
  intros Hct Ht.
  pose proof (Qc_of_nat_pos t Ht) as Hpos.
  assert (Ht' : Qc_of_nat t ≠ 0%Qc).
  { intros H0. rewrite H0 in Hpos. by apply Qclt_not_le in Hpos. }
  pose proof (Qc_of_nat_le 0 c ltac:(lia)) as Hc0. rewrite Qc_of_nat_0 in Hc0.
  pose proof (Qc_of_nat_le c t Hct) as Hle.
  assert (H100 : (0 ≤ Qc_of_Z 100)%Qc).
  { pose proof (proj1 (Z2Qc_inj_le 0 100) ltac:(lia)) as H.
    by rewrite Z2Qc_inj_0 in H. }
  assert (Hq : (Qc_of_nat c / Qc_of_nat t * Qc_of_Z 100 * Qc_of_nat t)%Qc
               = (Qc_of_nat c * Qc_of_Z 100)%Qc) by (by field).
  split; apply (Qcmult_le_mono_pos_r _ _ (Qc_of_nat t) Hpos); rewrite Hq.
  - rewrite Qcmult_0_l. by apply Qcmult_nonneg_nonneg.
  - rewrite (Qcmult_comm (Qc_of_Z 100)). by apply Qcmult_le_mono_nonneg_r.
Qed.

(** X11: over a non-empty labelled set the overall accuracy that [test]
    returns is a finite number between 0 and 100. *)
Theorem test_overall_accuracy_range {Img} model criterion
    (testloader : list (Server.batch Img)) (predss : list (list nat))
    (tr : list event) :
  evaluated model testloader predss →
  sample_pairs testloader predss ≠ [] →
  ∃ avg_loss q (metrics : gmap string metric_value) out,
    Server.test model criterion testloader tr
    = (Return (avg_loss, Fin q, metrics), tr ++ out)
    ∧ (0 ≤ q)%Qc ∧ (q ≤ Qc_of_Z 100)%Qc.
Proof.
  intros Hev Hpairs.
  destruct (test_report model criterion testloader predss tr
              (sample_pairs_nonempty _ _ Hpairs) Hev)
    as (metrics & out & Hrun & _).
  set (pairs := sample_pairs testloader predss) in *.
  assert (Ht : total_samples pairs ≠ 0).
  { unfold total_samples. by destruct pairs. }
  assert (Hct : total_correct pairs ≤ total_samples pairs).
  { unfold total_correct, total_samples. apply length_filter. }
  unfold tensor_div in Hrun. rewrite decide_False in Hrun.
  - simpl in Hrun. eexists _, _, metrics, out. split; [exact Hrun | ].
    by apply percentage_range.
  - pose proof (Qc_of_nat_pos _ Ht) as Hpos. intros H0.
    rewrite H0 in Hpos. by apply Qclt_not_le in Hpos.
Qed.

Lemma test_overall_accuracy_range_witness :
  ∃ avg_loss q (metrics : gmap string metric_value) out,
    Server.test example_model example_criterion example_loader []
    = (Return (avg_loss, Fin q, metrics), [] ++ out)
    ∧ (0 ≤ q)%Qc ∧ (q ≤ Qc_of_Z 100)%Qc.
Proof.
  apply (test_overall_accuracy_range example_model example_criterion
           example_loader [[0; 1; 2]] []).
  - exact example_evaluated.
  - discriminate.
Defined.

(** X12: with labels and predictions among the ten classes, [test]
    returns exactly when the loader has at least one batch; on an empty
    loader it raises [ZeroDivisionError] (the average loss divides by the
    number of batches) before it prints anything. *)
Theorem test_returns_iff_batches {Img} model criterion
    (testloader : list (Server.batch Img)) (predss : list (list nat))
    (tr : list event) :
  evaluated model testloader predss →
  (returned (Server.test model criterion testloader tr).1 = true
   ↔ testloader ≠ [])
  ∧ (testloader = [] →
     Server.test model criterion testloader tr = (Raise ZeroDivisionError, tr)).
Proof.
  intros Hev. split; [split | ].
  - intros Hret ->. discriminate Hret.
  - intros Hne.
    pose proof (test_exact model criterion testloader predss tr Hne Hev) as H.
    cbv zeta in H. destruct H as (a & o & m & out & d & -> & _). done.
  - intros ->. reflexivity.
Qed.

Lemma test_returns_iff_batches_witness :
  (returned (Server.test example_model example_criterion example_loader []).1
   = true ↔ example_loader ≠ [])
  ∧ (example_loader = [] →
     Server.test example_model example_criterion example_loader []
     = (Raise ZeroDivisionError, [])).
Proof.
  apply (test_returns_iff_batches example_model example_criterion
           example_loader [[0; 1; 2]] []).
  exact example_evaluated.
Defined.


(** ** aggregate_fit: nothing to publish, failed evaluation *)

(** X14: [aggregate_fit] writes checkpoint files exactly when FedAvg
    yielded aggregated parameters and the evaluation returned.  With [None]
    for the parameters it hands FedAvg's result through and does nothing
    else: no evaluation, no output, no file written. *)
Theorem aggregate_fit_saves_iff {Img}
    (model : list Img → list (list Qc))
    (criterion : list (list Qc) → list nat → Qc) (keys : list string)
    (self : Server.SaveModelStrategy) (server_round : Z)
    (aggregated_parameters : option (list tensor))
    (aggregated_metrics : gmap string metric_value)
    (testloader : list (Server.batch Img)) (tr : list event) :
  (writes (Server.aggregate_fit model criterion keys self server_round
             (aggregated_parameters, aggregated_metrics) testloader tr).2
   ≠ writes tr
   ↔ is_Some aggregated_parameters
     ∧ returned (Server.test model criterion testloader tr).1 = true)
  ∧ (aggregated_parameters = None →
     Server.aggregate_fit model criterion keys self server_round
       (aggregated_parameters, aggregated_metrics) testloader tr
     = (Return (None, aggregated_metrics), tr)).
Proof.
  assert (Htest := keeps_writes_test model criterion testloader tr).
  split; [ | by intros ->].
  destruct aggregated_parameters as [nd|]; simpl.
  - unfold mbind at 1. unfold M_bind at 1.
    destruct (Server.test model criterion testloader tr)
      as [[[[loss acc] m]|e] tr0]; simpl in *.
    + unfold print, emit, mbind, M_bind. simpl.
      rewrite !writes_app, Htest. simpl. split.
      * intros _. split; [by eexists | done].
      * intros _ H. apply (f_equal length) in H.
        rewrite !length_app in H. simpl in H. lia.
    + split; [intros H; by destruct H | intros [_ H]; discriminate H].
  - split; [intros H; by destruct H | intros [[? H] _]; discriminate H].
Qed.

Lemma aggregate_fit_test_raises {Img} model criterion keys self r nd am
    (testloader : list (Server.batch Img)) tr e tr' :
  Server.test model criterion testloader tr = (Raise e, tr') →
  Server.aggregate_fit model criterion keys self r (Some nd, am) testloader tr
  = (Raise e, tr').
Proof.
  intros Htest. unfold Server.aggregate_fit.
  unfold mbind at 1. unfold M_bind at 1. by rewrite Htest.
Qed.

(** X15: when the evaluation raises, [aggregate_fit] raises the same
    exception and no checkpoint file is written, neither the round-keyed
    one nor "latest": the aggregated parameters of the round are not
    saved. *)
Theorem aggregate_fit_failed_evaluation_saves_nothing {Img}
    model criterion keys self r nd am
    (testloader : list (Server.batch Img)) tr e tr' :
  Server.test model criterion testloader tr = (Raise e, tr') →
  Server.aggregate_fit model criterion keys self r (Some nd, am) testloader tr
  = (Raise e, tr')
  ∧ writes tr' = writes tr.
Proof.
  intros Htest. split.
  - by apply aggregate_fit_test_raises.
  - pose proof (keeps_writes_test model criterion testloader tr) as H.
    by rewrite Htest in H.
Qed.

Lemma aggregate_fit_failed_evaluation_saves_nothing_witness :
  Server.aggregate_fit example_model example_criterion example_keys
    {| Server.save_dir := "saved_models" |} 2 (Some example_ndarrays, ∅) [] []
  = (Raise ZeroDivisionError, [])
  ∧ writes [] = writes [].
Proof.
  apply aggregate_fit_failed_evaluation_saves_nothing. reflexivity.
Defined.

(** ** From a publish to the inference side *)

Lemma latest_after_publish {Img} model criterion keys self r nd am
    (testloader : list (Server.batch Img)) ret metrics tr (now : Qc)
    (fs : gmap string FS.file) :
  Server.aggregate_fit model criterion keys self r (Some nd, am) testloader []
    = (Return (ret, metrics), tr) →
  FS.run now fs (writes tr) !! latest_path (Server.save_dir self)
  = Some {| FS.data := serialize (published keys nd r metrics);
            FS.mtime := now |}.
Proof.
  intros Hrun.
  destruct (aggregate_fit_writes _ _ _ _ _ _ _ _ _ _ _ Hrun) as [_ ->].
  rewrite run_app. apply run_torch_save.
Qed.

(** X16: after a successful publish at time [now], a model manager that
    watches "latest", whose recorded modification time is not [now] and
    whose model has the layers of the published dictionary, reloads on its
    next [get_model]: its model then carries the aggregated parameters, its
    recorded modification time is [now], and the message printed names the
    round just published. *)
Theorem publish_then_get_model_reloads {Img} model criterion keys strategy r nd am
    (testloader : list (Server.batch Img)) ret metrics tr (now : Qc)
    (fs : gmap string FS.file) (self : Inference.ModelManager)
    (tr0 : list event) :
  Server.aggregate_fit model criterion keys strategy r (Some nd, am) testloader []
    = (Return (ret, metrics), tr) →
  Inference.mm_model_path self = latest_path (Server.save_dir strategy) →
  Inference.last_modified self ≠ Some now →
  length <$> Server.dict_of_zip keys nd
    = length <$> Inference.weights (Inference.mm_model self) →
  Inference.get_model (FS.run now fs (writes tr)) self tr0
  = (Return (reloaded self (Server.dict_of_zip keys nd) now,
             {| Inference.weights := Server.dict_of_zip keys nd;
                Inference.training := false |}),
     tr0 ++ [ PathExists (Inference.mm_model_path self);
              Getmtime (Inference.mm_model_path self);
              Print (Line ("Loading model from " +:+ Inference.mm_model_path self));
              TorchLoad (Inference.mm_model_path self);
              Print (Line ("Model loaded successfully (Round: " +:+ pretty r
                           +:+ ")")) ]).
Proof.
  intros Hrun Hpath Hnew Hshape.
  pose proof (latest_after_publish _ _ _ _ _ _ _ _ _ _ _ now fs Hrun) as Hlatest.
  rewrite <- Hpath in Hlatest.
  unfold Inference.get_model, mbind, M_bind.
  by rewrite (load_model_changed _ self _ (published keys nd r metrics)
                (Server.dict_of_zip keys nd) tr0 Hlatest Hnew
                (deserialize_serialize _) eq_refl Hshape).
Qed.

Lemma publish_then_get_model_reloads_witness :
  Inference.get_model (FS.run 2%Qc example_old_fs (writes example_publish.2))
    example_watcher []
  = (Return (reloaded example_watcher
               (Server.dict_of_zip example_keys example_ndarrays) 2%Qc,
             {| Inference.weights := Server.dict_of_zip example_keys example_ndarrays;
                Inference.training := false |}),
     [] ++ [ PathExists (Inference.mm_model_path example_watcher);
             Getmtime (Inference.mm_model_path example_watcher);
             Print (Line ("Loading model from "
                          +:+ Inference.mm_model_path example_watcher));
             TorchLoad (Inference.mm_model_path example_watcher);
             Print (Line ("Model loaded successfully (Round: " +:+ pretty 2%Z
                          +:+ ")")) ]).
Proof.
  apply (publish_then_get_model_reloads example_model example_criterion
           example_keys {| Server.save_dir := "saved_models" |} 2
           example_ndarrays ∅ example_loader (Some example_ndarrays)
           example_metrics example_publish.2 2%Qc example_old_fs
           example_watcher []).
  - exact example_publish_returned.
  - reflexivity.
  - discriminate.
  - compute_done.
Defined.

(** ** load_model: what a successful call leaves, and its errors *)

Lemma load_model_returns_inv fs self self' tr tr' :
  Inference.load_model fs self tr = (Return self', tr') →
  ∃ f, fs !! Inference.mm_model_path self = Some f
       ∧ Inference.last_modified self' = Some (FS.mtime f)
       ∧ Inference.mm_model_path self' = Inference.mm_model_path self.
Proof.
  unfold Inference.load_model, print, emit, lift, mbind, M_bind. simpl.
  unfold FS.exists_, FS.getmtime, torch_load.
  destruct (fs !! Inference.mm_model_path self) as [f|] eqn:Hf.
  - rewrite bool_decide_eq_true_2 by (by eexists). simpl.
    destruct (decide (Inference.last_modified self ≠ Some (FS.mtime f)))
      as [Hnew|Hsame].
    + destruct (deserialize (FS.data f)) as [ck|e]; simpl; [ | discriminate].
      destruct (ck_model_state_dict ck) as [d|]; simpl; [ | discriminate].
      destruct (Inference.load_state_dict (Inference.mm_model self) d)
        as [m|e]; simpl; [ | discriminate].
      intros [= <- _]. by exists f.
    + intros [= <- _]. exists f. split; [done | split; [ | done]].
      by destruct (decide (Inference.last_modified self = Some (FS.mtime f))).
  - rewrite bool_decide_eq_false_2 by (by intros [? ?]). simpl. discriminate.
Qed.

(** X17: a second [get_model] on an unchanged file system does not load
    the file again: after any call that returned, the next call returns the
    same manager and model and only tests the file's existence and
    modification time. *)
Theorem get_model_twice fs self self' m tr tr' :
  Inference.get_model fs self tr = (Return (self', m), tr') →
  Inference.get_model fs self' tr'
  = (Return (self', m), tr' ++ check_events (Inference.mm_model_path self)).
Proof.
  unfold Inference.get_model at 1. unfold mbind, M_bind.
  destruct (Inference.load_model fs self tr) as [[self1|e] tr1] eqn:Hload;
    [ | discriminate].
  intros [= <- <- <-].
  destruct (load_model_returns_inv _ _ _ _ _ Hload) as (f & Hf & Hmod & Hpath).
  unfold Inference.get_model, mbind, M_bind.
  rewrite <- Hpath in Hf.
  rewrite (load_model_unchanged fs self1 f tr1 Hf Hmod). by rewrite Hpath.
Qed.

Lemma get_model_twice_witness :
  Inference.get_model {[ "model_latest.pt" := example_file 2 ]}
    (reloaded example_manager example_weights (Qc_of_Z 5))
    ([] ++ reload_events "model_latest.pt"
             {| ck_round := Some 2%Z;
                ck_model_state_dict := Some example_weights;
                ck_metrics := Some ∅ |})
  = (Return (reloaded example_manager example_weights (Qc_of_Z 5),
             Inference.mm_model
               (reloaded example_manager example_weights (Qc_of_Z 5))),
     ([] ++ reload_events "model_latest.pt"
              {| ck_round := Some 2%Z;
                 ck_model_state_dict := Some example_weights;
                 ck_metrics := Some ∅ |})
     ++ check_events "model_latest.pt").
Proof.
  apply (get_model_twice {[ "model_latest.pt" := example_file 2 ]}
           example_manager _ _ []).
  unfold Inference.get_model, mbind, M_bind.
  by rewrite example_manager_loads.
Defined.

Lemma load_model_unreadable fs self f e tr :
  fs !! Inference.mm_model_path self = Some f →
  Inference.last_modified self ≠ Some (FS.mtime f) →
  deserialize (FS.data f) = Raise e →
  Inference.load_model fs self tr
  = (Raise e,
     tr ++ [ PathExists (Inference.mm_model_path self);
             Getmtime (Inference.mm_model_path self);
             Print (Line ("Loading model from " +:+ Inference.mm_model_path self));
             TorchLoad (Inference.mm_model_path self) ]).
Proof.
  intros Hf Hnew Hbad.
  unfold Inference.load_model, print, emit, lift, mbind, M_bind.
  rewrite (exists_lookup _ _ _ Hf). simpl.
  unfold FS.getmtime, torch_load. rewrite Hf. simpl.
  rewrite decide_True by done. rewrite Hbad. simpl.
  by rewrite <- !app_assoc.
Qed.

(** X18: a reader that polls while "latest" is being written crashes: in
    every file-system state between the opening of "latest" and its last
    record, [get_model] of a manager that watches "latest" and has not
    recorded the time of this write raises instead of returning a model. *)
Theorem get_model_during_publish_raises {Img} model criterion keys strategy r nd am
    (testloader : list (Server.batch Img)) ret metrics tr (now : Qc)
    (fs : gmap string FS.file) (self : Inference.ModelManager)
    (tr0 : list event) (j : nat) :
  Server.aggregate_fit model criterion keys strategy r (Some nd, am) testloader []
    = (Return (ret, metrics), tr) →
  Inference.mm_model_path self = latest_path (Server.save_dir strategy) →
  Inference.last_modified self ≠ Some now →
  j < length (serialize (published keys nd r metrics)) →
  let written :=
    length (torch_save (published keys nd r metrics)
              (round_path (Server.save_dir strategy) r)) in
  raises (Inference.get_model
            (state_after now fs (writes tr) (written + S j)) self tr0).1.
Proof.
  intros Hrun Hpath Hnew Hj written.
  destruct (aggregate_fit_writes _ _ _ _ _ _ _ _ _ _ _ Hrun) as [_ Hops].
  assert (Hlatest :
    state_after now fs (writes tr) (written + S j) !! Inference.mm_model_path self
    = Some {| FS.data := take j (serialize (published keys nd r metrics));
              FS.mtime := now |}).
  { unfold state_after, written. rewrite Hops, take_app_add, run_app, Hpath.
    apply run_torch_save_prefix. }
  destruct (deserialize_prefix _ j Hj) as [e He].
  exists e. unfold Inference.get_model, mbind, M_bind.
  by rewrite (load_model_unreadable _ self _ e tr0 Hlatest Hnew He).
Qed.

Lemma get_model_during_publish_raises_witness :
  raises (Inference.get_model
            (state_after 2%Qc example_old_fs (writes example_publish.2)
               (length (torch_save
                          (published example_keys example_ndarrays 2 example_metrics)
                          (round_path "saved_models" 2)) + 1))
            example_watcher []).1.
Proof.
  apply (get_model_during_publish_raises example_model example_criterion
           example_keys {| Server.save_dir := "saved_models" |} 2
           example_ndarrays ∅ example_loader (Some example_ndarrays)
           example_metrics example_publish.2 2%Qc example_old_fs
           example_watcher [] 0).
  - exact example_publish_returned.
  - reflexivity.
  - discriminate.
  - simpl. lia.
Defined.

(** X19: a checkpoint file without a ["model_state_dict"] entry makes
    [load_model] raise [KeyError('model_state_dict')] after the file has
    been loaded. *)
Theorem load_model_without_state_dict fs self f ck tr :
  fs !! Inference.mm_model_path self = Some f →
  Inference.last_modified self ≠ Some (FS.mtime f) →
  deserialize (FS.data f) = Return ck →
  ck_model_state_dict ck = None →
  Inference.load_model fs self tr
  = (Raise (KeyError "model_state_dict"),
     tr ++ [ PathExists (Inference.mm_model_path self);
             Getmtime (Inference.mm_model_path self);
             Print (Line ("Loading model from " +:+ Inference.mm_model_path self));
             TorchLoad (Inference.mm_model_path self) ]).
Proof.
  intros Hf Hnew Hck Hnone.
  unfold Inference.load_model, print, emit, lift, mbind, M_bind.
  rewrite (exists_lookup _ _ _ Hf). simpl.
  unfold FS.getmtime, torch_load. rewrite Hf. simpl.
  rewrite decide_True by done. rewrite Hck, Hnone. simpl.
  by rewrite <- !app_assoc.
Qed.

Lemma load_model_without_state_dict_witness :
  Inference.load_model
    {[ "model_latest.pt" :=
         {| FS.data := serialize {| ck_round := Some 1%Z;
                                    ck_model_state_dict := None;
                                    ck_metrics := None |};
            FS.mtime := 1%Qc |} ]}
    example_manager []
  = (Raise (KeyError "model_state_dict"),
     [] ++ [ PathExists (Inference.mm_model_path example_manager);
             Getmtime (Inference.mm_model_path example_manager);
             Print (Line ("Loading model from "
                          +:+ Inference.mm_model_path example_manager));
             TorchLoad (Inference.mm_model_path example_manager) ]).
Proof.
  eapply load_model_without_state_dict.
  - apply lookup_singleton_eq.
  - discriminate.
  - apply deserialize_serialize.
  - reflexivity.
Defined.

(** X20: a checkpoint whose state dict has other layer names or shapes
    than the model makes [load_model] raise [RuntimeError] after the file
    has been loaded. *)
Theorem load_model_shape_mismatch fs self f ck d tr :
  fs !! Inference.mm_model_path self = Some f →
  Inference.last_modified self ≠ Some (FS.mtime f) →
  deserialize (FS.data f) = Return ck →
  ck_model_state_dict ck = Some d →
  length <$> d ≠ length <$> Inference.weights (Inference.mm_model self) →
  Inference.load_model fs self tr
  = (Raise (RuntimeError "Error(s) in loading state_dict"),
     tr ++ [ PathExists (Inference.mm_model_path self);
             Getmtime (Inference.mm_model_path self);
             Print (Line ("Loading model from " +:+ Inference.mm_model_path self));
             TorchLoad (Inference.mm_model_path self) ]).
Proof.
  intros Hf Hnew Hck Hd Hshape.
  unfold Inference.load_model, print, emit, lift, mbind, M_bind.
  rewrite (exists_lookup _ _ _ Hf). simpl.
  unfold FS.getmtime, torch_load. rewrite Hf. simpl.
  rewrite decide_True by done. rewrite Hck, Hd. simpl.
  unfold Inference.load_state_dict. rewrite decide_False by done. simpl.
  by rewrite <- !app_assoc.
Qed.

Lemma load_model_shape_mismatch_witness :
  Inference.load_model
    {[ "model_latest.pt" :=
         {| FS.data := serialize {| ck_round := Some 1%Z;
                                    ck_model_state_dict := Some {[ "w" := [1%Qc] ]};
                                    ck_metrics := None |};
            FS.mtime := 1%Qc |} ]}
    example_manager []
  = (Raise (RuntimeError "Error(s) in loading state_dict"),
     [] ++ [ PathExists (Inference.mm_model_path example_manager);
             Getmtime (Inference.mm_model_path example_manager);
             Print (Line ("Loading model from "
                          +:+ Inference.mm_model_path example_manager));
             TorchLoad (Inference.mm_model_path example_manager) ]).
Proof.
  eapply load_model_shape_mismatch.
  - apply lookup_singleton_eq.
  - discriminate.
  - apply deserialize_serialize.
  - reflexivity.
  - simpl. rewrite !map_fmap_singleton. simpl.
    intros H. apply (f_equal (λ m : gmap string nat, m !! "w")) in H.
    rewrite !lookup_singleton_eq in H. discriminate H.
Defined.

(** ** get_prediction: what the answer depends on *)

Lemma exp_sum_shift (c : R) (row : list R) :
  Inference.exp_sum ((λ x, x + c)%R <$> row) = (exp c * Inference.exp_sum row)%R.
Proof.
  unfold Inference.exp_sum. induction row as [|x row IH]; csimpl.
  - ring.
  - rewrite IH, exp_plus. ring.
Qed.

Lemma softmax_shift (c : R) (row : list R) :
  Inference.softmax ((λ x, x + c)%R <$> row) = Inference.softmax row.
Proof.
  destruct (decide (row = [])) as [->|Hne]; [done | ].
  unfold Inference.softmax. rewrite <- list_fmap_compose.
  apply list_fmap_ext. intros i x _. simpl.
  rewrite exp_sum_shift, exp_plus.
  pose proof (exp_sum_pos row Hne). pose proof (exp_pos c).
  field. split; lra.
Qed.

(** X21: adding the same constant to every class score changes neither
    the label nor the confidence that [get_prediction] returns. *)
Theorem get_prediction_shift_invariant (self : Inference.InferenceProcessor)
    (outputs : list R) (threshold c : R) :
  Inference.get_prediction self ((λ x, x + c)%R <$> outputs) threshold
  = Inference.get_prediction self outputs threshold.
Proof. unfold Inference.get_prediction. by rewrite softmax_shift. Qed.

Lemma softmax_lookup (row : list R) (k : nat) (p : R) :
  Inference.softmax row !! k = Some p →
  ∃ x, row !! k = Some x ∧ p = (exp x / Inference.exp_sum row)%R.
Proof.
  unfold Inference.softmax. rewrite list_lookup_fmap.
  destruct (row !! k) as [x|]; simpl; [ | done]. intros [= <-]. by exists x.
Qed.

Lemma softmax_elem (row : list R) (x : R) :
  x ∈ row → (exp x / Inference.exp_sum row)%R ∈ Inference.softmax row.
Proof.
  intros Hx. unfold Inference.softmax. apply list_elem_of_fmap. by exists x.
Qed.

Lemma div_le_inv (a b s : R) : (0 < s)%R → (a / s <= b / s)%R → (a <= b)%R.
Proof.
  intros Hs H. apply (Rmult_le_compat_r s) in H; [ | lra].
  unfold Rdiv in H. rewrite !Rmult_assoc, Rinv_l in H by lra. lra.
Qed.

Lemma div_lt_inv (a b s : R) : (0 < s)%R → (a / s < b / s)%R → (a < b)%R.
Proof.
  intros Hs H. apply (Rmult_lt_compat_r s) in H; [ | lra].
  unfold Rdiv in H. rewrite !Rmult_assoc, Rinv_l in H by lra. lra.
Qed.

Lemma exp_le_inv' (x y : R) : (exp x <= exp y)%R → (x <= y)%R.
Proof.
  intros H. destruct (Rle_or_lt x y) as [|Hlt]; [done | ].
  apply exp_increasing in Hlt. lra.
Qed.

(** X22: the class [get_prediction] names is the first class with the
    largest raw score: the softmax does not change which class wins, and
    the confidence is that class's share [exp(m) / sum(exp(x_j))]. *)
Theorem get_prediction_names_first_largest_score
    (self : Inference.InferenceProcessor) (outputs : list R) (threshold : R) :
  outputs ≠ [] →
  ∃ (m : R) (k : nat),
    outputs !! k = Some m
    ∧ (∀ x, x ∈ outputs → (x <= m)%R)
    ∧ (∀ j x, j < k → outputs !! j = Some x → (x < m)%R)
    ∧ Inference.get_prediction self outputs threshold
      = if decide (exp m / Inference.exp_sum outputs < threshold)%R
        then Return ("Low confidence", 0%R)
        else Return (default "Unknown" (Inference.labels self !! k),
                     (exp m / Inference.exp_sum outputs)%R).
Proof.
  intros Hne. pose proof (exp_sum_pos outputs Hne) as Hs.
  destruct (torch_max_spec _ (softmax_nonempty _ Hne))
    as (c & k & Hmax & Hk & Hle & Hfirst).
  destruct (softmax_lookup _ _ _ Hk) as (m & Hm & ->).
  exists m, k. split; [done | split; [ | split]].
  - intros x Hx. apply exp_le_inv', (div_le_inv _ _ _ Hs).
    apply Hle. by apply softmax_elem.
  - intros j x Hj Hx. apply exp_lt_inv, (div_lt_inv _ _ _ Hs).
    apply (Hfirst j); [done | ].
    unfold Inference.softmax. by rewrite list_lookup_fmap, Hx.
  - unfold Inference.get_prediction. rewrite Hmax. simpl.
    by destruct (decide (exp m / Inference.exp_sum outputs < threshold)%R).
Qed.

Lemma get_prediction_names_first_largest_score_witness :
  ∃ (m : R) (k : nat),
    [1%R; 3%R; 3%R] !! k = Some m
    ∧ (∀ x, x ∈ [1%R; 3%R; 3%R] → (x <= m)%R)
    ∧ (∀ j x, j < k → [1%R; 3%R; 3%R] !! j = Some x → (x < m)%R)
    ∧ Inference.get_prediction Inference.InferenceProcessor_init
        [1%R; 3%R; 3%R] 0%R
      = if decide (exp m / Inference.exp_sum [1%R; 3%R; 3%R] < 0)%R
        then Return ("Low confidence", 0%R)
        else Return (default "Unknown"
                       (Inference.labels Inference.InferenceProcessor_init !! k),
                     (exp m / Inference.exp_sum [1%R; 3%R; 3%R])%R).
Proof.
  apply get_prediction_names_first_largest_score. discriminate.
Defined.

Lemma exp_le_exp_sum (row : list R) (x : R) :
  x ∈ row → (exp x <= Inference.exp_sum row)%R.
Proof.
  unfold Inference.exp_sum. induction 1 as [x row|x y row _ IH]; csimpl.
  - pose proof (exp_sum_nonneg row) as H. unfold Inference.exp_sum in H. lra.
  - pose proof (exp_pos y). lra.
Qed.

Lemma softmax_entry_range (row : list R) (p : R) :
  p ∈ Inference.softmax row → (0 < p)%R ∧ (p <= 1)%R.
Proof.
  intros Hp. unfold Inference.softmax in Hp.
  apply list_elem_of_fmap in Hp as (x & -> & Hx).
  assert (Hne : row ≠ []) by (intros ->; by apply elem_of_nil in Hx).
  pose proof (exp_sum_pos row Hne) as Hs. pose proof (exp_pos x) as Hx0.
  pose proof (exp_le_exp_sum row x Hx) as Hle. split.
  - by apply Rdiv_lt_0_compat.
  - apply (div_le_inv _ _ (/ Inference.exp_sum row)).
    + by apply Rinv_0_lt_compat.
    + unfold Rdiv. rewrite Rinv_inv. rewrite Rmult_assoc, Rinv_l by lra. lra.
Qed.

(** X23: on a non-empty output row [get_prediction] returns either
    [("Low confidence", 0.0)] or a confidence that is at least the
    threshold, greater than 0 and at most 1. *)
Theorem get_prediction_confidence_range (self : Inference.InferenceProcessor)
    (outputs : list R) (threshold : R) :
  outputs ≠ [] →
  ∃ (label : string) (c : R),
    Inference.get_prediction self outputs threshold = Return (label, c)
    ∧ ((label = "Low confidence" ∧ c = 0%R)
       ∨ ((threshold <= c)%R ∧ (0 < c)%R ∧ (c <= 1)%R)).
Proof.
  intros Hne.
  destruct (torch_max_spec _ (softmax_nonempty _ Hne))
    as (c & k & Hmax & Hk & _ & _).
  destruct (softmax_entry_range outputs c (list_elem_of_lookup_2 _ _ _ Hk))
    as [Hpos Hle].
  unfold Inference.get_prediction. rewrite Hmax. simpl.
  destruct (decide (c < threshold)%R) as [Hlow|Hhigh].
  - exists "Low confidence", 0%R. split; [done | by left].
  - eexists _, c. split; [done | right]. repeat split; lra.
Qed.

Lemma get_prediction_confidence_range_witness :
  ∃ (label : string) (c : R),
    Inference.get_prediction Inference.InferenceProcessor_init
      [1%R; 3%R; 3%R] (1 / 2)%R = Return (label, c)
    ∧ ((label = "Low confidence" ∧ c = 0%R)
       ∨ ((1 / 2 <= c)%R ∧ (0 < c)%R ∧ (c <= 1)%R)).
Proof. apply get_prediction_confidence_range. discriminate. Defined.

(** X24: a threshold above 1 turns every prediction into
    [("Low confidence", 0.0)], and with a threshold of 0 or below no
    prediction is turned into it: the confidence returned is positive. *)
Theorem get_prediction_extreme_thresholds (self : Inference.InferenceProcessor)
    (outputs : list R) (threshold : R) :
  outputs ≠ [] →
  ((1 < threshold)%R →
   Inference.get_prediction self outputs threshold = Return ("Low confidence", 0%R))
  ∧ ((threshold <= 0)%R →
     ∃ label c, Inference.get_prediction self outputs threshold = Return (label, c)
                ∧ (0 < c)%R).
Proof.
  intros Hne.
  destruct (torch_max_spec _ (softmax_nonempty _ Hne))
    as (c & k & Hmax & Hk & _ & _).
  destruct (softmax_entry_range outputs c (list_elem_of_lookup_2 _ _ _ Hk))
    as [Hpos Hle].
  unfold Inference.get_prediction. rewrite Hmax. simpl. split.
  - intros Ht. by rewrite decide_True by lra.
  - intros Ht. rewrite decide_False by lra. by eexists _, c.
Qed.

Lemma get_prediction_extreme_thresholds_witness :
  Inference.get_prediction Inference.InferenceProcessor_init
    [1%R; 3%R; 3%R] 2%R = Return ("Low confidence", 0%R).
Proof.
  apply (get_prediction_extreme_thresholds Inference.InferenceProcessor_init
           [1%R; 3%R; 3%R] 2%R); [discriminate | lra].
Defined.

(** ** The inference loop: frames, exits *)

Section LoopExits.
Context {Frame Tensor : Type}.
Variable mnist_pipeline rgb_pipeline : Frame → Tensor.
Variable forward : Inference.Model → Tensor → list R.
Variable rtsp_url : string.
Variable processor : Inference.InferenceProcessor.
Variable confidence_threshold : R.

Local Abbreviation iteration :=
  (Inference.iteration mnist_pipeline rgb_pipeline forward rtsp_url processor
     confidence_threshold).
Local Abbreviation loop :=
  (Inference.loop mnist_pipeline rgb_pipeline forward rtsp_url processor
     confidence_threshold).
Local Abbreviation run_inference :=
  (Inference.run_inference mnist_pipeline rgb_pipeline forward rtsp_url
     processor confidence_threshold).

(** X25: with a processor on which [use_mnist] was never set, as
    [InferenceProcessor()] builds it, the first frame that is read and for
    which [get_model] returns ends the loop: [preprocess_frame] raises
    [AttributeError] and nothing in the loop catches it. *)
Theorem loop_ends_at_first_frame_without_use_mnist
    (tk : Inference.tick Frame) (more : list (Inference.tick Frame))
    (st : Inference.loop_state) (frame : Frame)
    (manager : Inference.ModelManager) (model : Inference.Model)
    (tr tr' : list event) :
  Inference.use_mnist processor = None →
  Inference.interrupt tk = false →
  Inference.read tk = Some frame →
  Inference.get_model (Inference.files tk) (Inference.model_manager st)
    (tr ++ [CapRead]) = (Return (manager, model), tr') →
  loop (tk :: more) st tr
  = (Raise (AttributeError
              "'InferenceProcessor' object has no attribute 'use_mnist'"), tr').
Proof.
  intros Hnone Hint Hread Hget. simpl. unfold mbind at 1. unfold M_bind at 1.
  unfold Inference.iteration, emit. unfold mbind at 1. unfold M_bind at 1.
  rewrite Hint, Hread. unfold mbind at 1. unfold M_bind at 1. rewrite Hget.
  unfold mbind at 1. unfold M_bind at 1.
  unfold lift at 1, Inference.preprocess_frame. by rewrite Hnone.
Qed.


Lemma try_loop_cleans_up (body : M Inference.loop_status) tr r tr' :
  Inference.try_loop body tr = (r, tr') →
  (∀ st, r ≠ Return (Inference.Running st)) →
  ∃ before, tr' = before ++ [CapRelease; DestroyAllWindows].
Proof.
  unfold Inference.try_loop, Inference.cleanup, print, emit, mbind, M_bind, raise.
  destruct (body tr) as [[[st|]|e] tr1]; simpl.
  - intros [= <- <-] Hr. by destruct (Hr st).
  - intros [= <- <-] _. exists tr1. by rewrite <- app_assoc.
  - destruct e; simpl; intros [= <- <-] _;
      try (exists tr1; by rewrite <- app_assoc).
    exists (tr1 ++ [Print (Line (newline +:+ "Stopping inference..."))]).
    by rewrite <- !app_assoc.
Qed.

(** X27: once the stream was opened, every way out of the loop, whether
    [break], Ctrl-C or an exception, releases the stream and closes the
    windows: these are the last two events of a run that has ended. *)
Theorem run_inference_cleans_up (start : Qc) (manager : Inference.ModelManager)
    (ticks : list (Inference.tick Frame)) (tr : list event) r tr' :
  run_inference true start manager ticks tr = (r, tr') →
  (∀ st, r ≠ Return (Inference.Running st)) →
  ∃ before, tr' = before ++ [CapRelease; DestroyAllWindows].
Proof.
  unfold Inference.run_inference, print, emit. unfold mbind at 1. unfold M_bind at 1.
  simpl. unfold mbind at 1. unfold M_bind at 1. simpl.
  apply try_loop_cleans_up.
Qed.

Lemma iteration_interrupt (tk : Inference.tick Frame) st tr :
  Inference.interrupt tk = true →
  iteration tk st tr = (Raise KeyboardInterrupt, tr ++ [CapRead]).
Proof.
  intros Hint. unfold Inference.iteration, emit, mbind, M_bind. simpl.
  by rewrite Hint.
Qed.

(** X28: Ctrl-C does not leave [run_inference] as an exception: when it
    arrives at a [cap.read()], after any number of failed reads, the
    function prints "Stopping inference...", releases the stream, closes
    the windows and returns. *)
Theorem run_inference_interrupted (start : Qc) (manager : Inference.ModelManager)
    (ticks more : list (Inference.tick Frame)) (tk : Inference.tick Frame)
    (tr : list event) :
  Forall (λ tk, Inference.interrupt tk = false ∧ Inference.read tk = None) ticks →
  Inference.interrupt tk = true →
  run_inference true start manager (ticks ++ tk :: more) tr
  = (Return Inference.Broke,
     ((tr ++ [VideoCapture rtsp_url;
              Print (Line ("Starting inference on " +:+ rtsp_url))])
      ++ mjoin ((λ _, reconnect_events rtsp_url) <$> ticks))
     ++ [CapRead; Print (Line (newline +:+ "Stopping inference..."));
         CapRelease; DestroyAllWindows]).
Proof.
  intros Hfail Hint.
  unfold Inference.run_inference, print, emit. unfold mbind at 1. unfold M_bind at 1.
  simpl. unfold mbind at 1. unfold M_bind at 1. simpl.
  unfold Inference.try_loop.
  rewrite (loop_read_failures mnist_pipeline rgb_pipeline forward rtsp_url
             processor confidence_threshold ticks (tk :: more) _ Hfail).
  simpl. unfold mbind at 1. unfold M_bind at 1.
  rewrite (iteration_interrupt tk _ _ Hint).
  unfold Inference.cleanup, print, emit, mbind, M_bind, mret, M_ret. simpl.
  by rewrite <- !app_assoc.
Qed.

End LoopExits.

Lemma example_get_model (tr : list event) :
  Inference.get_model {[ "model_latest.pt" := example_file 2 ]} example_manager tr
  = (Return (reloaded example_manager example_weights (Qc_of_Z 5),
             {| Inference.weights := example_weights;
                Inference.training := false |}),
     tr ++ reload_events "model_latest.pt"
             {| ck_round := Some 2%Z;
                ck_model_state_dict := Some example_weights;
                ck_metrics := Some ∅ |}).
Proof.
  unfold Inference.get_model, mbind, M_bind. by rewrite example_manager_loads.
Qed.

Lemma loop_ends_at_first_frame_without_use_mnist_witness :
  Inference.loop example_pipeline example_pipeline example_forward
    "rtsp://camera" Inference.InferenceProcessor_init
    Inference.default_confidence_threshold
    [example_frame_with_file; example_failed_read] example_loop_state []
  = (Raise (AttributeError
              "'InferenceProcessor' object has no attribute 'use_mnist'"),
     ([] ++ [CapRead])
     ++ reload_events "model_latest.pt"
          {| ck_round := Some 2%Z;
             ck_model_state_dict := Some example_weights;
             ck_metrics := Some ∅ |}).
Proof.
  eapply (loop_ends_at_first_frame_without_use_mnist
            example_pipeline example_pipeline example_forward "rtsp://camera"
            Inference.InferenceProcessor_init
            Inference.default_confidence_threshold
            example_frame_with_file [example_failed_read] example_loop_state ()).
  - reflexivity.
  - reflexivity.
  - reflexivity.
  - apply example_get_model.
Defined.


Lemma run_inference_cleans_up_witness :
  ∃ before,
    (Inference.run_inference example_pipeline example_pipeline example_forward
       "rtsp://camera" Inference.InferenceProcessor_init
       Inference.default_confidence_threshold true 0%Qc example_manager
       [example_failed_read; example_frame_without_file] []).2
    = before ++ [CapRelease; DestroyAllWindows].
Proof.
  eapply (run_inference_cleans_up
            example_pipeline example_pipeline example_forward "rtsp://camera"
            Inference.InferenceProcessor_init
            Inference.default_confidence_threshold 0%Qc example_manager
            [example_failed_read; example_frame_without_file] []
            (Raise (FileNotFoundError "Model file not found: model_latest.pt"))).
  - reflexivity.
  - discriminate.
Defined.

Lemma run_inference_interrupted_witness :
  Inference.run_inference example_pipeline example_pipeline example_forward
    "rtsp://camera" Inference.InferenceProcessor_init
    Inference.default_confidence_threshold true 0%Qc example_manager
    ([example_failed_read] ++ example_interrupt :: []) []
  = (Return Inference.Broke,
     (([] ++ [VideoCapture "rtsp://camera";
              Print (Line ("Starting inference on " +:+ "rtsp://camera"))])
      ++ mjoin ((λ _, reconnect_events "rtsp://camera") <$> [example_failed_read]))
     ++ [CapRead; Print (Line (newline +:+ "Stopping inference..."));
         CapRelease; DestroyAllWindows]).
Proof.
  apply run_inference_interrupted.
  - repeat constructor.
  - reflexivity.
Defined.
